(** * The discovery-to-digest pipeline of [main.py]

    A shallow embedding of [src/main.py]: search GitHub, fetch each
    candidate's README, summarise it with the generative model, compose a
    digest and post it to the Discord webhook.

    - Python [str] values are sequences of Unicode code points, so [len] and
      slicing count code points; they are modelled as [list N].
    - The three remote services are an oracle ([World]) that answers each
      request from the history of the run so far; every request made is
      recorded, with its answer, in a trace.
    - Exceptions are the [Raise] results of a small trace-and-error monad.
    - Console output ([print]) has no effect on control flow and is left out. *)

From Stdlib Require Import String Ascii NArith ZArith Lia Bool List Sorted.
Import ListNotations.

(* ================================================================= *)
(** ** Python strings *)

Module PyStr.

Definition pystr := list N.

(** Source literals are written as UTF-8 text and decoded to code points. *)
Fixpoint utf8_decode (bs : list N) (need : nat) (acc : N) : pystr :=
  match bs with
  | [] => []
  | b :: bs' =>
      match need with
      | O =>
          if (b <? 128)%N then b :: utf8_decode bs' 0 0%N
          else if (b <? 224)%N then utf8_decode bs' 1 (b - 192)%N
          else if (b <? 240)%N then utf8_decode bs' 2 (b - 224)%N
          else utf8_decode bs' 3 (b - 240)%N
      | S O => (acc * 64 + (b - 128))%N :: utf8_decode bs' 0 0%N
      | S k => utf8_decode bs' k (acc * 64 + (b - 128))%N
      end
  end.

Definition lit (s : string) : pystr :=
  utf8_decode (map N_of_ascii (list_ascii_of_string s)) 0 0%N.

Definition eqb (a b : pystr) : bool :=
  if list_eq_dec N.eq_dec a b then true else false.

(** [str.isspace] on one code point (CPython's [_PyUnicode_IsWhitespace]). *)
Definition isspace (c : N) : bool :=
  ((9 <=? c) && (c <=? 13) || (28 <=? c) && (c <=? 32)
   || (c =? 133) || (c =? 160) || (c =? 5760)
   || (8192 <=? c) && (c <=? 8202)
   || (c =? 8232) || (c =? 8233) || (c =? 8239) || (c =? 8287)
   || (c =? 12288))%N.

Fixpoint lstrip (s : pystr) : pystr :=
  match s with
  | c :: s' => if isspace c then lstrip s' else s
  | [] => []
  end.

Definition rstrip (s : pystr) : pystr := rev (lstrip (rev s)).

(** [s.strip()] *)
Definition strip (s : pystr) : pystr := rstrip (lstrip s).

(** [s.split(sep)] for a one-character separator: always at least one
    field, one more than the number of separators. *)
Fixpoint split (sep : N) (s : pystr) : list pystr :=
  match s with
  | [] => [[]]
  | c :: s' =>
      if (c =? sep)%N then [] :: split sep s'
      else match split sep s' with
           | f :: fs => (c :: f) :: fs
           | [] => [[c]]
           end
  end.

(** [sep.join(fields)] *)
Fixpoint join (sep : pystr) (fields : list pystr) : pystr :=
  match fields with
  | [] => []
  | [f] => f
  | f :: fs => f ++ sep ++ join sep fs
  end.

Fixpoint startswith (s p : pystr) {struct p} : bool :=
  match p, s with
  | [], _ => true
  | x :: p', y :: s' => (x =? y)%N && startswith s' p'
  | _ :: _, [] => false
  end.

(** [str(n)] for an integer. *)
Fixpoint digits (d : Decimal.uint) : pystr :=
  match d with
  | Decimal.Nil => []
  | Decimal.D0 d' => 48%N :: digits d'
  | Decimal.D1 d' => 49%N :: digits d'
  | Decimal.D2 d' => 50%N :: digits d'
  | Decimal.D3 d' => 51%N :: digits d'
  | Decimal.D4 d' => 52%N :: digits d'
  | Decimal.D5 d' => 53%N :: digits d'
  | Decimal.D6 d' => 54%N :: digits d'
  | Decimal.D7 d' => 55%N :: digits d'
  | Decimal.D8 d' => 56%N :: digits d'
  | Decimal.D9 d' => 57%N :: digits d'
  end.

Definition str_of_int (z : Z) : pystr :=
  match Z.to_int z with
  | Decimal.Pos d => digits d
  | Decimal.Neg d => 45%N :: digits d
  end.

(** *** [textwrap.dedent]

    The regular-expression implementation of CPython 3.10 to 3.13, read line
    by line: a line made only of spaces and tabs is blanked, the indentation
    (leading spaces and tabs) of every other line is collected, the margin is
    the common prefix of these indentations, and the margin is removed from
    the start of each line that begins with it. *)

Definition is_sp_tab (c : N) : bool := ((c =? 32) || (c =? 9))%N.

Definition blank_line (l : pystr) : pystr :=
  if forallb is_sp_tab l then [] else l.

Fixpoint leading_ws (l : pystr) : pystr :=
  match l with
  | c :: l' => if is_sp_tab c then c :: leading_ws l' else []
  | [] => []
  end.

Definition indents (lines : list pystr) : list pystr :=
  map leading_ws (filter (fun l => negb (forallb is_sp_tab l)) lines).

Fixpoint first_diff (m i : pystr) (k : nat) : option nat :=
  match m, i with
  | x :: m', y :: i' => if (x =? y)%N then first_diff m' i' (S k) else Some k
  | _, _ => None
  end.

Definition narrow (margin : option pystr) (indent : pystr) : option pystr :=
  match margin with
  | None => Some indent
  | Some m =>
      if startswith indent m then Some m
      else if startswith m indent then Some indent
      else match first_diff m indent 0 with
           | Some i => Some (firstn i m)
           | None => Some m
           end
  end.

Definition margin_of (lines : list pystr) : option pystr :=
  fold_left narrow (indents lines) None.

Definition remove_prefix (p l : pystr) : pystr :=
  if startswith l p then skipn (length p) l else l.

Definition dedent (text : pystr) : pystr :=
  let lines := map blank_line (split 10 text) in
  match margin_of lines with
  | Some (c :: m) => join [10%N] (map (remove_prefix (c :: m)) lines)
  | _ => join [10%N] lines
  end.

End PyStr.
Import PyStr.


(* ================================================================= *)
(** ** Exceptions, services and the trace *)

Inductive exn : Type :=
| HTTPError (status : Z)      (* requests.HTTPError, from raise_for_status *)
| RequestFailure              (* any other requests exception *)
| ValueError                  (* a body that is not JSON, a response with no text *)
| KeyError
| TypeError
| ServiceError (code : N).    (* failure reported by the generative service *)

Inductive result (A : Type) : Type :=
| Ok (a : A)
| Raise (e : exn).
Arguments Ok {A} a.
Arguments Raise {A} e.

(** One item of the search answer. *)
Record Repo : Type := {
  full_name : pystr;
  stargazers_count : Z;
  description : option pystr;
  html_url : pystr }.

(** What [resp.json()] can decode to, as far as [data["items"]] looks. *)
Inductive json : Type :=
| JDict (items : option (list Repo))
| JNotDict.

Record Response : Type := {
  status_code : Z;
  text : pystr;
  json_body : result json }.

Record Headers : Type := { Authorization : pystr; Accept : pystr }.

Record Params : Type := {
  q : pystr; sort : pystr; order : pystr; per_page : nat }.

Record Payload : Type := { content : pystr; username : pystr }.

Inductive event : Type :=
| EvGet (url : pystr) (headers : Headers) (params : option Params)
        (out : result Response)
| EvGenerate (prompt : pystr) (out : result (option pystr))
| EvPost (url : pystr) (payload : Payload) (out : result Response).

Definition trace := list event.

(** The environment: the two secrets read at start-up and the answers of the
    remote services, which may depend on everything that happened before. *)
Record World : Type := {
  GITHUB_TOKEN : pystr;
  DISCORD_WEBHOOK_URL : pystr;
  requests_get : trace -> pystr -> Headers -> option Params -> result Response;
  generate_content : trace -> pystr -> result (option pystr);
  requests_post : trace -> pystr -> Payload -> result Response }.

(* ================================================================= *)
(** ** The trace-and-error monad *)

Definition M (A : Type) : Type := trace -> result A * trace.

Definition ret {A} (a : A) : M A := fun tr => (Ok a, tr).

Definition raise {A} (e : exn) : M A := fun tr => (Raise e, tr).

Definition bind {A B} (c : M A) (k : A -> M B) : M B :=
  fun tr =>
    match c tr with
    | (Ok a, tr') => k a tr'
    | (Raise e, tr') => (Raise e, tr')
    end.

Notation "x <- c ;; k" := (bind c (fun x => k))
  (at level 61, c at next level, right associativity).
Notation "c ;;; k" := (bind c (fun _ => k))
  (at level 61, right associativity).

Definition lift {A} (r : result A) : M A := fun tr => (r, tr).

(** [try: c  except requests.HTTPError: handler] *)
Definition try_except_HTTPError {A} (c : M A) (handler : Z -> M A) : M A :=
  fun tr =>
    match c tr with
    | (Raise (HTTPError st), tr') => handler st tr'
    | r => r
    end.

Fixpoint for_each {A} (body : A -> M unit) (l : list A) : M unit :=
  match l with
  | [] => ret tt
  | x :: l' => body x ;;; for_each body l'
  end.

(** [enumerate(l, start=start)] *)
Fixpoint enumerate {A} (l : list A) (start : Z) : list (Z * A) :=
  match l with
  | [] => []
  | x :: l' => (start, x) :: enumerate l' (start + 1)
  end.

(* ================================================================= *)
(** ** The program *)

Definition GITHUB_API_BASE : pystr :=
  Eval vm_compute in lit "https://api.github.com".

(** How many of the search results are summarised. *)
Definition TOP_N : nat := 2.

Definition or_empty (o : option pystr) : pystr :=
  match o with
  | Some s => s
  | None => []
  end.

(** Truth value of a [str | None]: [None] and the empty string are false. *)
Definition truthy (o : option pystr) : bool :=
  match o with
  | Some (_ :: _) => true
  | _ => false
  end.

Definition readme_marker : pystr := Eval vm_compute in lit "
...
(※長いので一部のみ要約)".

Definition discord_marker : pystr := Eval vm_compute in lit "
...(文字数制限でカット)".

(** The first statement of [summarize_with_gemini]; [s[:n]] is [firstn n s]. *)
Definition max_chars : nat := 5000.

Definition cap_readme (readme_text : pystr) : pystr :=
  if max_chars <? length readme_text
  then firstn max_chars readme_text ++ readme_marker
  else readme_text.

Definition prompt_head : pystr := Eval vm_compute in lit "
あなたは GitHub リポジトリの README を簡潔に要約するアシスタントです。

以下の README を読み、
- 何をするプロジェクトか
- 主な機能
- 技術的なポイント
- Rikochi AI（自律AIの設計や実装）の参考になりそうな点
を **やさしい日本語で5〜8行程度** にまとめてください。

リポジトリ名: ".

Definition prompt_mid : pystr := Eval vm_compute in lit "

README:
----------------------
".

Definition prompt_tail : pystr := Eval vm_compute in lit "
----------------------
".

Definition make_prompt (full_name readme_text : pystr) : pystr :=
  prompt_head ++ full_name ++ prompt_mid ++ readme_text ++ prompt_tail.

(** The first statement of [send_to_discord]. *)
Definition cap_content (content : pystr) : pystr :=
  if 1900 <? length content
  then firstn 1900 content ++ discord_marker
  else content.

Definition discord_username : pystr := Eval vm_compute in lit "rikochi_repo".

(** The literal pieces of the f-string of [main]. *)
Definition msg_rank : pystr := Eval vm_compute in lit "
        🏅 ランク ".

Definition msg_name : pystr := Eval vm_compute in lit "

        📘 **".

Definition msg_stars : pystr := Eval vm_compute in lit "**
        ⭐ Stars: ".

Definition msg_url : pystr := Eval vm_compute in lit "
        🔗 ".

Definition msg_desc : pystr := Eval vm_compute in lit "

        📝 説明:
        ".

Definition msg_summary : pystr := Eval vm_compute in lit "

        🧠 README 要約 (Gemini):
        ".

Definition msg_end : pystr := Eval vm_compute in lit "
        ".

(** The f-string of [main], before [textwrap.dedent] and [strip]. *)
Definition message_template
    (rank : Z) (full_name : pystr) (stars : Z) (url desc summary : pystr)
    : pystr :=
  msg_rank ++ str_of_int rank ++ msg_name ++ full_name
  ++ msg_stars ++ str_of_int stars ++ msg_url ++ url
  ++ msg_desc ++ desc ++ msg_summary ++ summary ++ msg_end.

Definition compose_message (rank : Z) (repo : Repo) (summary : pystr) : pystr :=
  strip (dedent (message_template rank (full_name repo)
                   (stargazers_count repo) (html_url repo)
                   (or_empty (description repo)) summary)).

(** The first line of a composed message: the badge and the rank. *)
Definition rank_badge : pystr := Eval vm_compute in lit "🏅 ランク ".

Definition rank_line (rank : Z) : pystr :=
  rank_badge ++ str_of_int rank ++ [10%N].

Definition query : pystr :=
  Eval vm_compute in lit "autonomous agent language:Python stars:>200".

(** [Response.raise_for_status] raises on client and server error statuses. *)
Definition is_error_status (st : Z) : bool :=
  ((400 <=? st) && (st <? 600))%Z.

Definition token_scheme : pystr := Eval vm_compute in lit "token ".
Definition accept_raw_type : pystr :=
  Eval vm_compute in lit "application/vnd.github.v3.raw".
Definition accept_json_type : pystr :=
  Eval vm_compute in lit "application/vnd.github.v3+json".
Definition search_path : pystr := Eval vm_compute in lit "/search/repositories".
Definition sort_stars : pystr := Eval vm_compute in lit "stars".
Definition order_desc : pystr := Eval vm_compute in lit "desc".
Definition repos_prefix : pystr := Eval vm_compute in lit "/repos/".
Definition slash : pystr := Eval vm_compute in lit "/".
Definition readme_suffix : pystr := Eval vm_compute in lit "/readme".

Section Pipeline.

Variable w : World.

Definition http_get (url : pystr) (h : Headers) (p : option Params)
    : M Response :=
  fun tr =>
    let out := requests_get w tr url h p in
    (out, tr ++ [EvGet url h p out]).

Definition model_generate (prompt : pystr) : M (option pystr) :=
  fun tr =>
    let out := generate_content w tr prompt in
    (out, tr ++ [EvGenerate prompt out]).

Definition http_post (url : pystr) (payload : Payload) : M Response :=
  fun tr =>
    let out := requests_post w tr url payload in
    (out, tr ++ [EvPost url payload out]).

Definition raise_for_status (resp : Response) : M unit :=
  if is_error_status (status_code resp)
  then raise (HTTPError (status_code resp))
  else ret tt.

Definition github_headers (accept_raw : bool) : Headers :=
  {| Authorization := token_scheme ++ GITHUB_TOKEN w;
     Accept := if accept_raw then accept_raw_type else accept_json_type |}.

Definition github_request
    (path : pystr) (params : option Params) (accept_raw : bool)
    : M (if accept_raw then pystr else json) :=
  let url := GITHUB_API_BASE ++ path in
  let headers := github_headers accept_raw in
  resp <- http_get url headers params ;;
  (if negb (status_code resp =? 200)%Z then raise_for_status resp else ret tt) ;;;
  (if accept_raw return M (if accept_raw then pystr else json)
   then ret (text resp)
   else lift (json_body resp)).

Definition search_params (query : pystr) (per_page : nat) : Params :=
  {| q := query; sort := sort_stars; order := order_desc;
     per_page := per_page |}.

Definition search_repos (query : pystr) (per_page : nat) : M (list Repo) :=
  let params := search_params query per_page in
  data <- github_request search_path (Some params) false ;;
  match data with
  | JDict (Some items) => ret items
  | JDict None => raise KeyError
  | JNotDict => raise TypeError
  end.

Definition readme_path (owner repo : pystr) : pystr :=
  repos_prefix ++ owner ++ slash ++ repo ++ readme_suffix.

Definition fetch_readme (owner repo : pystr) : M (option pystr) :=
  let path := readme_path owner repo in
  try_except_HTTPError
    (readme_text <- github_request path None true ;;
     ret (Some readme_text))
    (fun _ => ret None).

Definition summarize_with_gemini (full_name readme_text : pystr) : M pystr :=
  let readme_text := cap_readme readme_text in
  let prompt := make_prompt full_name readme_text in
  response_text <- model_generate prompt ;;
  ret (strip (or_empty response_text)).

Definition send_to_discord (content : pystr) : M unit :=
  let content := cap_content content in
  let payload := {| content := content; username := discord_username |} in
  _ <- http_post (DISCORD_WEBHOOK_URL w) payload ;;
  ret tt.

(** [fetch_readme( *full_name.split("/"))]: anything but two fields is a
    call with the wrong number of arguments. *)
Definition fetch_readme_star (fields : list pystr) : M (option pystr) :=
  match fields with
  | [owner; repo] => fetch_readme owner repo
  | _ => raise TypeError
  end.

(** The body of the [for] loop of [main]. *)
Definition process_candidate (rank : Z) (repo : Repo) : M unit :=
  readme <- fetch_readme_star (split 47 (full_name repo)) ;;
  if negb (truthy readme) then ret tt   (* continue *)
  else
    summary <- summarize_with_gemini (full_name repo) (or_empty readme) ;;
    send_to_discord (compose_message rank repo summary).

Definition run_candidates (candidates : list (Z * Repo)) : M unit :=
  for_each (fun c => process_candidate (fst c) (snd c)) candidates.

(** [main], with the two literals it reads as arguments. *)
Definition main_with (top_n per_page : nat) : M unit :=
  repos <- search_repos query per_page ;;
  run_candidates (enumerate (firstn top_n repos) 1).

Definition main : M unit := main_with TOP_N 5.

End Pipeline.


(* ================================================================= *)
(** ** Reading a trace *)

Definition posted (ev : event) : option pystr :=
  match ev with
  | EvPost _ p _ => Some (content p)
  | _ => None
  end.

(** The contents handed to the webhook, in order. *)
Fixpoint posts (tr : trace) : list pystr :=
  match tr with
  | [] => []
  | ev :: tr' =>
      match posted ev with
      | Some c => c :: posts tr'
      | None => posts tr'
      end
  end.

(** Delivery attempts: requests made to the webhook. *)
Definition deliveries (tr : trace) : nat := length (posts tr).

(** A README request (the only [GET] without parameters) that was answered
    with a document, that is, for which [fetch_readme] returned a [str]. *)
Definition found_readme (ev : event) : bool :=
  match ev with
  | EvGet _ _ None (Ok resp) => negb (is_error_status (status_code resp))
  | _ => false
  end.

Definition documented (tr : trace) : nat := length (filter found_readme tr).

Definition generated (ev : event) : bool :=
  match ev with
  | EvGenerate _ _ => true
  | _ => false
  end.

Definition readme_url (owner repo : pystr) : pystr :=
  GITHUB_API_BASE ++ readme_path owner repo.

Definition search_url : pystr := GITHUB_API_BASE ++ search_path.

(** What [fetch_readme] makes of the answer to its request. *)
Definition fetch_outcome (out : result Response) : result (option pystr) :=
  match out with
  | Ok resp =>
      if is_error_status (status_code resp) then Ok None
      else Ok (Some (text resp))
  | Raise (HTTPError _) => Ok None
  | Raise e => Raise e
  end.

(** What [search_repos] makes of the answer to its request. *)
Definition search_outcome (out : result Response) : result (list Repo) :=
  match out with
  | Ok resp =>
      if is_error_status (status_code resp)
      then Raise (HTTPError (status_code resp))
      else match json_body resp with
           | Ok (JDict (Some items)) => Ok items
           | Ok (JDict None) => Raise KeyError
           | Ok JNotDict => Raise TypeError
           | Raise e => Raise e
           end
  | Raise e => Raise e
  end.

Definition summary_outcome (out : result (option pystr)) : result pystr :=
  match out with
  | Ok generated_text => Ok (strip (or_empty generated_text))
  | Raise e => Raise e
  end.

Definition delivery_outcome (out : result Response) : result unit :=
  match out with
  | Ok _ => Ok tt
  | Raise e => Raise e
  end.

(** The rest of the loop body once the README is in hand. *)
Definition digest (w : World) (rank : Z) (repo : Repo) (readme : pystr)
    : M unit :=
  summary <- summarize_with_gemini w (full_name repo) readme ;;
  send_to_discord w (compose_message rank repo summary).

(** The request [fetch_readme] makes, with the answer it got. *)
Definition readme_event (w : World) (tr : trace) (owner repo : pystr) : event :=
  EvGet (readme_url owner repo) (github_headers w true) None
    (requests_get w tr (readme_url owner repo) (github_headers w true) None).

(** The request [search_repos] makes, with the answer it got. *)
Definition search_event (w : World) (tr : trace) (per_page : nat) : event :=
  EvGet search_url (github_headers w false)
    (Some (search_params query per_page))
    (requests_get w tr search_url (github_headers w false)
       (Some (search_params query per_page))).

(** The prompt and the payload of one candidate. *)
Definition prompt_of (repo : Repo) (readme : pystr) : pystr :=
  make_prompt (full_name repo) (cap_readme readme).

Definition payload_of (rank : Z) (repo : Repo) (generated_text : option pystr)
    : Payload :=
  {| content :=
       cap_content (compose_message rank repo (strip (or_empty generated_text)));
     username := discord_username |}.

(** A delivered message, by the place of its candidate in the slice the
    loop runs over: [sent_index] counts from 0. *)
Record Sent : Type := {
  sent_index : nat;
  sent_repo : Repo;
  sent_summary : pystr }.

Definition sent_rank (start : Z) (s : Sent) : Z :=
  start + Z.of_nat (sent_index s).

Definition sent_message (start : Z) (s : Sent) : pystr :=
  compose_message (sent_rank start s) (sent_repo s) (sent_summary s).

Definition later (s : Sent) : Sent :=
  {| sent_index := S (sent_index s);
     sent_repo := sent_repo s;
     sent_summary := sent_summary s |}.

(* ================================================================= *)
(** ** Concrete runs

    Two repositories are found; each world below fixes how the services
    answer.  They are the inputs at which the theorems are evaluated. *)

Module Demo.

Definition repo_ax : Repo :=
  {| full_name := lit "a/x"; stargazers_count := 500;
     description := Some (lit "d1"); html_url := lit "u1" |}.

Definition repo_by : Repo :=
  {| full_name := lit "b/y"; stargazers_count := 300;
     description := Some (lit "d2"); html_url := lit "u2" |}.

Definition response (st : Z) (body : pystr) : Response :=
  {| status_code := st; text := body; json_body := Raise ValueError |}.

Definition found : Response :=
  {| status_code := 200; text := [];
     json_body := Ok (JDict (Some [repo_ax; repo_by])) |}.

Definition world (search : Response) (readme : pystr -> Response)
    (generate : pystr -> result (option pystr)) : World :=
  {| GITHUB_TOKEN := lit "secret";
     DISCORD_WEBHOOK_URL := lit "https://discord.example/hook";
     requests_get := fun _ url _ p =>
       match p with
       | Some _ => Ok search
       | None => Ok (readme url)
       end;
     generate_content := fun _ prompt => generate prompt;
     requests_post := fun _ _ _ => Ok (response 204 []) |}.

Definition url_ax : pystr := readme_url (lit "a") (lit "x").

Definition prompt_ax : pystr := make_prompt (lit "a/x") (lit "doc").

Definition all_documented (url : pystr) : Response := response 200 (lit "doc").

Definition summaries (prompt : pystr) : result (option pystr) :=
  if PyStr.eqb prompt prompt_ax then Ok (Some (lit "S1"))
  else Ok (Some (lit "S2")).

(** Both documented, both summarised. *)
Definition w_happy : World := world found all_documented summaries.

(** The generative call fails for a/x and succeeds for b/y. *)
Definition w_quota : World :=
  world found all_documented
    (fun prompt =>
       if PyStr.eqb prompt prompt_ax then Raise (ServiceError 429)
       else Ok (Some (lit "S2"))).

(** a/x has no README (404), b/y has one. *)
Definition w_missing : World :=
  world found
    (fun url =>
       if PyStr.eqb url url_ax then response 404 (lit "Not Found")
       else response 200 (lit "doc"))
    summaries.

(** a/x has a README that is the empty text, b/y has one with text. *)
Definition w_empty : World :=
  world found
    (fun url =>
       if PyStr.eqb url url_ax then response 200 []
       else response 200 (lit "doc"))
    summaries.


(** The generative service returns a response without text. *)
Definition w_mute : World := world found all_documented (fun _ => Ok None).

(** The generative service pads its text with whitespace. *)
Definition w_padded : World :=
  world found all_documented (fun _ => Ok (Some (lit "  S1
 "))).

Definition two_candidates : list (Z * Repo) := [(1, repo_ax); (2, repo_by)]%Z.

(** A message of 1901 characters. *)
Definition long_message : pystr := repeat 120%N 1901.

End Demo.

(* ================================================================= *)
(** ** Start-up: the three secrets

    The module reads three environment variables when it is loaded and
    refuses to go on, with a [RuntimeError], when one of them is unset or
    empty.  [getenv] is [os.getenv] after [load_dotenv]. *)

Definition env_GH_API_TOKEN : pystr := Eval vm_compute in lit "GH_API_TOKEN".
Definition env_GEMINI_API_KEY : pystr := Eval vm_compute in lit "GEMINI_API_KEY".
Definition env_DISCORD_WEBHOOK_URL : pystr :=
  Eval vm_compute in lit "DISCORD_WEBHOOK_URL".

Definition missing_token : pystr :=
  Eval vm_compute in lit "GH_API_TOKEN が .env から読み込めていません".
Definition missing_key : pystr :=
  Eval vm_compute in lit "GEMINI_API_KEY が .env から読み込めていません".
Definition missing_webhook : pystr :=
  Eval vm_compute in lit "DISCORD_WEBHOOK_URL が .env から読み込めていません".

Inductive settings : Type :=
| Loaded (github_token gemini_api_key discord_webhook_url : pystr)
| RuntimeError (message : pystr).

Definition load_settings (getenv : pystr -> option pystr) : settings :=
  let github_token := getenv env_GH_API_TOKEN in
  let gemini_api_key := getenv env_GEMINI_API_KEY in
  let discord_webhook_url := getenv env_DISCORD_WEBHOOK_URL in
  if negb (truthy github_token) then RuntimeError missing_token
  else if negb (truthy gemini_api_key) then RuntimeError missing_key
  else if negb (truthy discord_webhook_url) then RuntimeError missing_webhook
  else Loaded (or_empty github_token) (or_empty gemini_api_key)
         (or_empty discord_webhook_url).

(* ================================================================= *)
(** ** More readings of a trace *)

Definition is_search (ev : event) : bool :=
  match ev with
  | EvGet _ _ (Some _) _ => true
  | _ => false
  end.

Definition is_readme_request (ev : event) : bool :=
  match ev with
  | EvGet _ _ None _ => true
  | _ => false
  end.

Definition searches (tr : trace) : nat := length (filter is_search tr).

Definition readme_requests (tr : trace) : nat :=
  length (filter is_readme_request tr).

Definition generations (tr : trace) : nat := length (filter generated tr).

(** Where a request goes and what it carries, as the code fixes it. *)
Definition well_addressed (w : World) (ev : event) : bool :=
  match ev with
  | EvGet url h (Some _) _ =>
      PyStr.eqb url search_url
      && PyStr.eqb (Authorization h) (token_scheme ++ GITHUB_TOKEN w)
      && PyStr.eqb (Accept h) accept_json_type
  | EvGet url h None _ =>
      startswith url (GITHUB_API_BASE ++ repos_prefix)
      && PyStr.eqb (Authorization h) (token_scheme ++ GITHUB_TOKEN w)
      && PyStr.eqb (Accept h) accept_raw_type
  | EvGenerate _ _ => true
  | EvPost url p _ =>
      PyStr.eqb url (DISCORD_WEBHOOK_URL w)
      && PyStr.eqb (username p) discord_username
  end.

(** The largest prompt and the largest delivered content. *)
Definition prompt_overhead : nat :=
  length prompt_head + length prompt_mid + length prompt_tail
  + (max_chars + length readme_marker).

Definition content_limit : nat := 1900 + length discord_marker.

(* ================================================================= *)
(** ** More concrete runs *)

Module Cases.

Definition world (search : result Response)
    (readme : pystr -> result Response)
    (generate : pystr -> result (option pystr))
    (post : result Response) : World :=
  {| GITHUB_TOKEN := lit "secret";
     DISCORD_WEBHOOK_URL := lit "https://discord.example/hook";
     requests_get := fun _ url _ p =>
       match p with
       | Some _ => search
       | None => readme url
       end;
     generate_content := fun _ prompt => generate prompt;
     requests_post := fun _ _ _ => post |}.

Definition documented (url : pystr) : result Response :=
  Ok (Demo.response 200 (lit "doc")).

Definition no_content : result Response := Ok (Demo.response 204 []).

(** The connection drops on the README request. *)
Definition w_offline : World :=
  world (Ok Demo.found) (fun _ => Raise RequestFailure) Demo.summaries
    no_content.

(** The README request is answered 202 with a body. *)
Definition w_accepted : World :=
  world (Ok Demo.found) (fun _ => Ok (Demo.response 202 (lit "later")))
    Demo.summaries no_content.

(** The webhook answers every delivery with 500. *)
Definition w_rejecting : World :=
  world (Ok Demo.found) documented Demo.summaries
    (Ok (Demo.response 500 (lit "Internal Server Error"))).

(** The search answers 200 with a JSON object that has no items. *)
Definition w_no_items : World :=
  world (Ok {| status_code := 200; text := [];
               json_body := Ok (JDict None) |})
    documented Demo.summaries no_content.

(** A search result whose name has no slash. *)
Definition repo_flat : Repo :=
  {| full_name := lit "flat"; stargazers_count := 7;
     description := None; html_url := lit "u3" |}.

(** The environment of a complete [.env]. *)
Definition complete_env (name : pystr) : option pystr :=
  if PyStr.eqb name env_GH_API_TOKEN then Some (lit "ghp_1")
  else if PyStr.eqb name env_GEMINI_API_KEY then Some (lit "key")
  else if PyStr.eqb name env_DISCORD_WEBHOOK_URL
       then Some (lit "https://discord.example/hook")
  else None.

(** The same with the Gemini key present but empty. *)
Definition empty_key_env (name : pystr) : option pystr :=
  if PyStr.eqb name env_GEMINI_API_KEY then Some [] else complete_env name.



End Cases.

(** What the loop body can add to the trace for one candidate: nothing, the
    README request alone, that and a generative call that raised, or those
    two and the delivery. *)
Definition candidate_trace (w : World) (rank : Z) (repo : Repo) (new : trace)
    : Prop :=
  new = []
  \/ (exists owner name out,
        new = [EvGet (readme_url owner name) (github_headers w true) None out])
  \/ (exists owner name resp e,
        new = [EvGet (readme_url owner name) (github_headers w true) None
                 (Ok resp);
               EvGenerate (prompt_of repo (text resp)) (Raise e)]
        /\ is_error_status (status_code resp) = false)
  \/ (exists owner name resp g out,
        new = [EvGet (readme_url owner name) (github_headers w true) None
                 (Ok resp);
               EvGenerate (prompt_of repo (text resp)) (Ok g);
               EvPost (DISCORD_WEBHOOK_URL w) (payload_of rank repo g) out]
        /\ is_error_status (status_code resp) = false).

(* ================================================================= *)
(** ** The lines of a message

    The visible text of the lines of the f-string of [main], and the
    message they make when no field holds a line break. *)

Definition line_title : pystr := Eval vm_compute in lit "📘 **".
Definition line_title_end : pystr := Eval vm_compute in lit "**".
Definition line_stars : pystr := Eval vm_compute in lit "⭐ Stars: ".
Definition line_url : pystr := Eval vm_compute in lit "🔗 ".
Definition line_desc : pystr := Eval vm_compute in lit "📝 説明:".
Definition line_summary : pystr :=
  Eval vm_compute in lit "🧠 README 要約 (Gemini):".

Definition no_newline (s : pystr) : bool :=
  forallb (fun c => negb (c =? 10)%N) s.

Definition plain_layout (rank : Z) (name : pystr) (stars : Z)
    (url desc summary : pystr) : pystr :=
  join [10%N]
    [rank_badge ++ str_of_int rank;
     [];
     line_title ++ name ++ line_title_end;
     line_stars ++ str_of_int stars;
     line_url ++ url;
     [];
     line_desc;
     blank_line desc;
     [];
     line_summary]
  ++ match summary with
     | [] => []
     | _ :: _ => 10%N :: summary
     end.

(* ================================================================= *)
(** ** One request at a time *)

Lemma posts_app (a b : trace) : posts (a ++ b) = posts a ++ posts b.
Proof.
  induction a as [|ev a IH]; simpl; [reflexivity|].
  destruct (posted ev); simpl; now rewrite IH.
Qed.

Lemma deliveries_app (a b : trace) :
  deliveries (a ++ b) = deliveries a + deliveries b.
Proof. unfold deliveries. now rewrite posts_app, length_app. Qed.

Lemma documented_app (a b : trace) :
  documented (a ++ b) = documented a + documented b.
Proof. unfold documented. now rewrite filter_app, length_app. Qed.

Lemma status_200_not_error (st : Z) :
  (st =? 200)%Z = true -> is_error_status st = false.
Proof. intros H. apply Z.eqb_eq in H. now subst. Qed.

Section Runs.

Variable w : World.

Lemma fetch_readme_run (owner repo : pystr) (tr : trace) :
  let out := requests_get w tr (readme_url owner repo)
               (github_headers w true) None in
  fetch_readme w owner repo tr =
  (fetch_outcome out,
   tr ++ [EvGet (readme_url owner repo) (github_headers w true) None out]).
Proof.
  cbv zeta.
  unfold fetch_readme, try_except_HTTPError, github_request, bind, http_get,
    raise_for_status, readme_url, fetch_outcome.
  destruct (requests_get w tr _ _ None) as [resp|e]; [|now destruct e].
  destruct (status_code resp =? 200)%Z eqn:E200; cbn [negb].
  - now rewrite (status_200_not_error _ E200).
  - now destruct (is_error_status (status_code resp)).
Qed.

Lemma search_repos_run (qs : pystr) (n : nat) (tr : trace) :
  let out := requests_get w tr search_url (github_headers w false)
               (Some (search_params qs n)) in
  search_repos w qs n tr =
  (search_outcome out,
   tr ++ [EvGet search_url (github_headers w false)
            (Some (search_params qs n)) out]).
Proof.
  cbv zeta.
  unfold search_repos, github_request, bind, http_get, raise_for_status,
    search_url, search_outcome, lift.
  destruct (requests_get w tr _ _ (Some _)) as [resp|e]; [|reflexivity].
  destruct (status_code resp =? 200)%Z eqn:E200; cbn [negb].
  - rewrite (status_200_not_error _ E200). unfold ret.
    now destruct (json_body resp) as [[[items|]|]|].
  - destruct (is_error_status (status_code resp)); [reflexivity|].
    unfold ret. now destruct (json_body resp) as [[[items|]|]|].
Qed.

Lemma summarize_run (name readme : pystr) (tr : trace) :
  let prompt := make_prompt name (cap_readme readme) in
  let out := generate_content w tr prompt in
  summarize_with_gemini w name readme tr =
  (summary_outcome out, tr ++ [EvGenerate prompt out]).
Proof.
  cbv zeta. unfold summarize_with_gemini, bind, model_generate, summary_outcome.
  now destruct (generate_content w tr _).
Qed.

Lemma send_run (message : pystr) (tr : trace) :
  let payload :=
    {| content := cap_content message; username := discord_username |} in
  let out := requests_post w tr (DISCORD_WEBHOOK_URL w) payload in
  send_to_discord w message tr =
  (delivery_outcome out, tr ++ [EvPost (DISCORD_WEBHOOK_URL w) payload out]).
Proof.
  cbv zeta. unfold send_to_discord, bind, http_post, delivery_outcome.
  now destruct (requests_post w tr _ _).
Qed.

End Runs.

(* ================================================================= *)
(** ** The two size caps *)

Lemma cap_content_short (message : pystr) :
  length message <= 1900 -> cap_content message = message.
Proof.
  intros H. unfold cap_content.
  destruct (Nat.ltb_spec 1900 (length message)); [lia|reflexivity].
Qed.

Lemma cap_content_long (message : pystr) :
  1900 < length message ->
  cap_content message = firstn 1900 message ++ discord_marker.
Proof.
  intros H. unfold cap_content.
  destruct (Nat.ltb_spec 1900 (length message)); [reflexivity|lia].
Qed.

Lemma cap_readme_short (readme : pystr) :
  length readme <= 5000 -> cap_readme readme = readme.
Proof.
  intros H. unfold cap_readme, max_chars.
  destruct (Nat.ltb_spec 5000 (length readme)); [lia|reflexivity].
Qed.

Lemma cap_readme_long (readme : pystr) :
  5000 < length readme ->
  cap_readme readme = firstn 5000 readme ++ readme_marker.
Proof.
  intros H. unfold cap_readme, max_chars.
  destruct (Nat.ltb_spec 5000 (length readme)); [reflexivity|lia].
Qed.

(** C3: whatever message [send_to_discord] is given, the one request it makes
    carries the message itself when it has at most 1900 characters, and its
    first 1900 characters followed by the cut marker when it has more. *)
Theorem send_to_discord_payload (w : World) (message : pystr) (tr : trace) :
  exists delivered out,
    snd (send_to_discord w message tr) =
      tr ++ [EvPost (DISCORD_WEBHOOK_URL w)
               {| content := delivered; username := discord_username |} out]
    /\ (length message <= 1900 -> delivered = message)
    /\ (1900 < length message ->
        delivered = firstn 1900 message ++ discord_marker).
Proof.
  exists (cap_content message). eexists.
  rewrite send_run. cbn [snd]. split; [reflexivity|].
  split; [apply cap_content_short | apply cap_content_long].
Qed.

(** C4: the prompt [summarize_with_gemini] sends to the generative service
    holds, between the fixed pieces of the template, the README itself when
    it has at most 5000 characters, and its first 5000 characters followed
    by the truncation marker when it has more, whatever its content. *)
Theorem summarize_prompt_input (w : World) (name readme : pystr) (tr : trace) :
  exists sent out,
    snd (summarize_with_gemini w name readme tr) =
      tr ++ [EvGenerate
               (prompt_head ++ name ++ prompt_mid ++ sent ++ prompt_tail) out]
    /\ (5000 < length readme -> sent = firstn 5000 readme ++ readme_marker)
    /\ (length readme <= 5000 -> sent = readme).
Proof.
  exists (cap_readme readme). eexists.
  rewrite summarize_run. cbn [snd]. split; [reflexivity|].
  split; [apply cap_readme_long | apply cap_readme_short].
Qed.

(** C9: when the generative call returns, [summarize_with_gemini] returns the
    generated text, with a missing text read as the empty string, stripped
    of leading and trailing whitespace; nothing checks that it is not empty. *)
Theorem summarize_result (w : World) (name readme : pystr) (tr : trace)
    (generated_text : option pystr) :
  generate_content w tr (make_prompt name (cap_readme readme))
    = Ok generated_text ->
  fst (summarize_with_gemini w name readme tr) =
    Ok (strip (match generated_text with
               | Some s => s
               | None => []
               end)).
Proof.
  intros H. rewrite summarize_run. cbn [fst]. now rewrite H.
Qed.

(** C10: for a message of more than 1900 characters the content delivered
    has 1900 characters plus the 15 of the marker, so more than 1900. *)
Theorem truncated_payload_length (w : World) (message : pystr) (tr : trace) :
  1900 < length message ->
  exists delivered out,
    snd (send_to_discord w message tr) =
      tr ++ [EvPost (DISCORD_WEBHOOK_URL w)
               {| content := delivered; username := discord_username |} out]
    /\ length delivered = 1900 + length discord_marker
    /\ length discord_marker = 15
    /\ 1900 < length delivered.
Proof.
  intros H. exists (cap_content message). eexists.
  rewrite send_run. cbn [snd]. split; [reflexivity|].
  rewrite (cap_content_long _ H), length_app, firstn_length_le by lia.
  change (length discord_marker) with 15. lia.
Qed.

(* ================================================================= *)
(** ** One candidate, then the loop *)

Section Loop.

Variable w : World.

Lemma run_candidates_cons (c : Z * Repo) (rest : list (Z * Repo)) (tr : trace) :
  run_candidates w (c :: rest) tr =
  match process_candidate w (fst c) (snd c) tr with
  | (Ok _, tr') => run_candidates w rest tr'
  | (Raise e, tr') => (Raise e, tr')
  end.
Proof. reflexivity. Qed.

Lemma process_candidate_run (rank : Z) (repo : Repo) (owner name : pystr)
    (tr : trace) :
  split 47 (full_name repo) = [owner; name] ->
  let out := requests_get w tr (readme_url owner name)
               (github_headers w true) None in
  let tr1 := tr ++ [EvGet (readme_url owner name) (github_headers w true)
                      None out] in
  process_candidate w rank repo tr =
  match fetch_outcome out with
  | Ok readme =>
      if truthy readme then digest w rank repo (or_empty readme) tr1
      else (Ok tt, tr1)
  | Raise e => (Raise e, tr1)
  end.
Proof.
  intros Hsplit. cbv zeta. unfold process_candidate, bind at 1.
  rewrite Hsplit. cbn [fetch_readme_star]. rewrite fetch_readme_run.
  destruct (fetch_outcome _) as [readme|e]; [|reflexivity].
  now destruct (truthy readme).
Qed.

End Loop.

(* ================================================================= *)
(** ** Failures *)

Section Failures.

Variable w : World.

Lemma process_candidate_fetched (rank : Z) (repo : Repo) (owner name : pystr)
    (resp : Response) (tr : trace) :
  split 47 (full_name repo) = [owner; name] ->
  requests_get w tr (readme_url owner name) (github_headers w true) None
    = Ok resp ->
  process_candidate w rank repo tr =
  if is_error_status (status_code resp) then
    (Ok tt, tr ++ [readme_event w tr owner name])
  else if truthy (Some (text resp)) then
    digest w rank repo (text resp) (tr ++ [readme_event w tr owner name])
  else (Ok tt, tr ++ [readme_event w tr owner name]).
Proof.
  intros Hsplit Hget.
  rewrite (process_candidate_run w rank repo owner name tr Hsplit).
  unfold readme_event. rewrite Hget. cbn [fetch_outcome].
  now destruct (is_error_status (status_code resp)).
Qed.


(** C8: when the README request of a candidate is answered with an error
    status (404 or any other), [fetch_readme] returns [None] instead of
    raising, the candidate costs that one request, and the loop goes on with
    the candidates after it. *)
Theorem fetch_error_skips_candidate (rank : Z) (repo : Repo)
    (owner name : pystr) (resp : Response) (rest : list (Z * Repo))
    (tr : trace) :
  split 47 (full_name repo) = [owner; name] ->
  requests_get w tr (readme_url owner name) (github_headers w true) None
    = Ok resp ->
  is_error_status (status_code resp) = true ->
  fetch_readme w owner name tr = (Ok None, tr ++ [readme_event w tr owner name])
  /\ run_candidates w ((rank, repo) :: rest) tr =
     run_candidates w rest (tr ++ [readme_event w tr owner name]).
Proof.
  intros Hsplit Hget Herr. split.
  - rewrite fetch_readme_run. cbv zeta. unfold readme_event.
    rewrite Hget. cbn [fetch_outcome]. now rewrite Herr.
  - rewrite run_candidates_cons. cbn [fst snd].
    rewrite (process_candidate_fetched rank repo owner name resp tr Hsplit Hget).
    now rewrite Herr.
Qed.

(** C5, as the code has it: a README that is fetched but empty is skipped
    like a missing one (no generative call, no delivery), and only a README
    with at least one character goes on to be summarised and delivered. *)
Theorem empty_readme_skips_candidate (rank : Z) (repo : Repo)
    (owner name : pystr) (resp : Response) (rest : list (Z * Repo))
    (tr : trace) :
  split 47 (full_name repo) = [owner; name] ->
  requests_get w tr (readme_url owner name) (github_headers w true) None
    = Ok resp ->
  is_error_status (status_code resp) = false ->
  (text resp = [] ->
   fetch_readme w owner name tr
     = (Ok (Some []), tr ++ [readme_event w tr owner name])
   /\ run_candidates w ((rank, repo) :: rest) tr =
      run_candidates w rest (tr ++ [readme_event w tr owner name]))
  /\ (text resp <> [] ->
      run_candidates w ((rank, repo) :: rest) tr =
      (digest w rank repo (text resp) ;;; run_candidates w rest)
        (tr ++ [readme_event w tr owner name])).
Proof.
  intros Hsplit Hget Hok. split.
  - intros Hempty. split.
    + rewrite fetch_readme_run. cbv zeta. unfold readme_event.
      rewrite Hget. cbn [fetch_outcome]. now rewrite Hok, Hempty.
    + rewrite run_candidates_cons. cbn [fst snd].
      rewrite (process_candidate_fetched rank repo owner name resp tr Hsplit Hget).
      now rewrite Hok, Hempty.
  - intros Hne. rewrite run_candidates_cons. cbn [fst snd].
    rewrite (process_candidate_fetched rank repo owner name resp tr Hsplit Hget).
    rewrite Hok. destruct (text resp) as [|c t]; [congruence|].
    reflexivity.
Qed.

Lemma digest_run (rank : Z) (repo : Repo) (readme : pystr) (tr : trace) :
  digest w rank repo readme tr =
  match generate_content w tr (prompt_of repo readme) with
  | Ok g =>
      let tr2 := tr ++ [EvGenerate (prompt_of repo readme) (Ok g)] in
      let out :=
        requests_post w tr2 (DISCORD_WEBHOOK_URL w) (payload_of rank repo g) in
      (delivery_outcome out,
       tr2 ++ [EvPost (DISCORD_WEBHOOK_URL w) (payload_of rank repo g) out])
  | Raise e => (Raise e, tr ++ [EvGenerate (prompt_of repo readme) (Raise e)])
  end.
Proof.
  unfold digest, bind, prompt_of, payload_of. rewrite summarize_run. cbv zeta.
  destruct (generate_content w tr _) as [g|e]; cbn [summary_outcome];
    [|reflexivity].
  now rewrite send_run.
Qed.

(** C1, as the code has it: the loop body has no handler of its own, so an
    exception raised by a candidate's generative call, or by its webhook
    request, ends the loop there: the run's outcome is that exception and
    no request is made for any candidate after it.  When it is the
    generative call that raises, nothing is delivered from that candidate
    on: the contents handed to the webhook are those of before. *)
Theorem candidate_exception_ends_run (rank : Z) (repo : Repo)
    (owner name : pystr) (resp : Response) (rest : list (Z * Repo))
    (tr : trace) :
  split 47 (full_name repo) = [owner; name] ->
  requests_get w tr (readme_url owner name) (github_headers w true) None
    = Ok resp ->
  is_error_status (status_code resp) = false ->
  text resp <> [] ->
  (forall e : exn,
     generate_content w (tr ++ [readme_event w tr owner name])
       (prompt_of repo (text resp)) = Raise e ->
     run_candidates w ((rank, repo) :: rest) tr =
       (Raise e,
        (tr ++ [readme_event w tr owner name])
          ++ [EvGenerate (prompt_of repo (text resp)) (Raise e)])
     /\ posts (snd (run_candidates w ((rank, repo) :: rest) tr)) = posts tr)
  /\ (forall (g : option pystr) (e : exn),
        generate_content w (tr ++ [readme_event w tr owner name])
          (prompt_of repo (text resp)) = Ok g ->
        requests_post w
          ((tr ++ [readme_event w tr owner name])
             ++ [EvGenerate (prompt_of repo (text resp)) (Ok g)])
          (DISCORD_WEBHOOK_URL w) (payload_of rank repo g) = Raise e ->
        run_candidates w ((rank, repo) :: rest) tr =
          (Raise e,
           ((tr ++ [readme_event w tr owner name])
              ++ [EvGenerate (prompt_of repo (text resp)) (Ok g)])
             ++ [EvPost (DISCORD_WEBHOOK_URL w) (payload_of rank repo g)
                   (Raise e)])).
Proof.
  intros Hsplit Hget Hok Hne.
  assert (Hrun : run_candidates w ((rank, repo) :: rest) tr =
            match digest w rank repo (text resp)
                    (tr ++ [readme_event w tr owner name]) with
            | (Ok _, tr') => run_candidates w rest tr'
            | (Raise e, tr') => (Raise e, tr')
            end).
  { rewrite run_candidates_cons. cbn [fst snd].
    rewrite (process_candidate_fetched rank repo owner name resp tr Hsplit Hget).
    rewrite Hok. destruct (text resp) as [|c t]; [congruence|]. reflexivity. }
  split.
  - intros e Hgen. rewrite Hrun, digest_run, Hgen. split; [reflexivity|].
    cbn [snd]. rewrite !posts_app. unfold readme_event. cbn [posts posted].
    now rewrite !app_nil_r.
  - intros g e Hgen Hpost. rewrite Hrun, digest_run, Hgen. cbv zeta.
    rewrite Hpost. reflexivity.
Qed.

End Failures.
(* ================================================================= *)
(** ** Facts about the string functions *)

Section StringFacts.

Local Abbreviation sp n := (repeat 32%N n).

Lemma split_sep (s : pystr) : split 10 (10%N :: s) = [] :: split 10 s.
Proof. reflexivity. Qed.

Lemma split_not_nil (sep : N) (s : pystr) :
  exists f fs, split sep s = f :: fs.
Proof.
  induction s as [|c s IH]; cbn; [now eexists; eexists|].
  destruct (c =? sep)%N; [now eexists; eexists|].
  destruct IH as (f & fs & ->). now eexists; eexists.
Qed.

Lemma split_line (a s : pystr) :
  Forall (fun c => c <> 10%N) a ->
  split 10 (a ++ 10%N :: s) = a :: split 10 s.
Proof.
  induction 1 as [|c a Hc _ IH]; [reflexivity|].
  cbn [app split]. apply N.eqb_neq in Hc. rewrite Hc, IH. reflexivity.
Qed.

Lemma split_prefix (a s : pystr) :
  Forall (fun c => c <> 10%N) a ->
  exists f fs, split 10 (a ++ s) = (a ++ f) :: fs.
Proof.
  induction 1 as [|c a Hc _ IH]; [apply split_not_nil|].
  destruct IH as (f & fs & IH). exists f, fs.
  cbn [app split]. apply N.eqb_neq in Hc. now rewrite Hc, IH.
Qed.

Lemma digits_no_newline (d : Decimal.uint) :
  Forall (fun c => c <> 10%N) (digits d).
Proof. induction d; cbn; constructor; (assumption || discriminate). Qed.

Lemma str_of_int_no_newline (z : Z) :
  Forall (fun c => c <> 10%N) (str_of_int z).
Proof.
  unfold str_of_int. destruct (Z.to_int z).
  - apply digits_no_newline.
  - constructor; [discriminate | apply digits_no_newline].
Qed.

Lemma spaces_no_newline (n : nat) : Forall (fun c => c <> 10%N) (sp n).
Proof. induction n; cbn; constructor; (assumption || discriminate). Qed.

Lemma not_blank (n : nat) (c : N) (r : pystr) :
  is_sp_tab c = false -> forallb is_sp_tab (sp n ++ c :: r) = false.
Proof. intros H. induction n; cbn; [now rewrite H | exact IHn]. Qed.

Lemma leading_ws_spaces (n : nat) (c : N) (r : pystr) :
  is_sp_tab c = false -> leading_ws (sp n ++ c :: r) = sp n.
Proof. intros H. induction n; cbn; [now rewrite H | now rewrite IHn]. Qed.

Lemma startswith_firstn (s p : pystr) :
  startswith s p = true -> p = firstn (length p) s.
Proof.
  revert s. induction p as [|x p IH]; intros [|y s] H; cbn in *;
    try reflexivity; try discriminate.
  apply andb_prop in H as [Hxy Hp]. apply N.eqb_eq in Hxy. subst y.
  now rewrite <- (IH s Hp).
Qed.

Lemma narrow_prefix (m indent : pystr) :
  exists k, narrow (Some m) indent = Some (firstn k m).
Proof.
  unfold narrow. destruct (startswith indent m).
  - exists (length m). now rewrite firstn_all.
  - destruct (startswith m indent) eqn:E.
    + exists (length indent). now rewrite <- (startswith_firstn _ _ E).
    + destruct (first_diff m indent 0) as [i|].
      * now exists i.
      * exists (length m). now rewrite firstn_all.
Qed.

Lemma fold_narrow_prefix (l : list pystr) (m : pystr) :
  exists k, fold_left narrow l (Some m) = Some (firstn k m).
Proof.
  revert m. induction l as [|i l IH]; intros m; cbn [fold_left].
  - exists (length m). now rewrite firstn_all.
  - destruct (narrow_prefix m i) as (k & Hk). rewrite Hk.
    destruct (IH (firstn k m)) as (k' & Hk').
    exists (Nat.min k' k). rewrite firstn_firstn in Hk'. exact Hk'.
Qed.

Lemma firstn_spaces (k n : nat) : firstn k (sp n) = sp (Nat.min k n).
Proof.
  revert n. induction k as [|k IH]; intros [|n]; cbn; try reflexivity.
  now rewrite IH.
Qed.

Lemma startswith_spaces (k n : nat) (rest : pystr) :
  k <= n -> startswith (sp n ++ rest) (sp k) = true.
Proof.
  revert n. induction k as [|k IH]; intros n Hk; [reflexivity|].
  destruct n as [|n]; [lia|]. cbn [repeat app startswith].
  rewrite N.eqb_refl. apply IH. lia.
Qed.

Lemma skipn_spaces (k n : nat) (rest : pystr) :
  k <= n -> skipn k (sp n ++ rest) = sp (n - k) ++ rest.
Proof.
  revert n. induction k as [|k IH]; intros n Hk.
  - now rewrite Nat.sub_0_r.
  - destruct n as [|n]; [lia|]. cbn [repeat app skipn Nat.sub].
    apply IH. lia.
Qed.

Lemma remove_prefix_spaces (k n : nat) (rest : pystr) :
  k <= n -> remove_prefix (sp k) (sp n ++ rest) = sp (n - k) ++ rest.
Proof.
  intros Hk. unfold remove_prefix.
  now rewrite repeat_length, startswith_spaces, skipn_spaces.
Qed.

Lemma remove_prefix_nil (p : pystr) : remove_prefix p [] = [].
Proof. unfold remove_prefix. now destruct p. Qed.

Lemma join_head (sep f : pystr) (fs : list pystr) :
  exists t, join sep (f :: fs) = f ++ t.
Proof.
  destruct fs as [|g fs]; cbn [join].
  - exists []. now rewrite app_nil_r.
  - now eexists.
Qed.

Lemma lstrip_spaces (n : nat) (s : pystr) : lstrip (sp n ++ s) = lstrip s.
Proof. induction n; cbn; [reflexivity | exact IHn]. Qed.

Lemma lstrip_keeps_suffix (x : pystr) (c : N) (y : pystr) :
  isspace c = false -> exists z, lstrip (x ++ c :: y) = z ++ c :: y.
Proof.
  intros Hc. induction x as [|d x IH]; cbn [app lstrip].
  - exists []. now rewrite Hc.
  - destruct (isspace d); [exact IH|]. now exists (d :: x).
Qed.

Lemma rstrip_keeps_prefix (pre : pystr) (c : N) (post : pystr) :
  isspace c = false -> exists post', rstrip (pre ++ c :: post) = pre ++ c :: post'.
Proof.
  intros Hc. unfold rstrip. rewrite rev_app_distr. cbn [rev].
  rewrite <- app_assoc. cbn [app].
  destruct (lstrip_keeps_suffix (rev post) c (rev pre) Hc) as (z & Hz).
  rewrite Hz.
  exists (rev z). rewrite rev_app_distr. cbn [rev].
  rewrite rev_involutive, <- app_assoc. reflexivity.
Qed.

Lemma startswith_app (p s : pystr) : startswith (p ++ s) p = true.
Proof. induction p as [|x p IH]; cbn; [reflexivity|]. now rewrite N.eqb_refl. Qed.

Lemma blank_line_visible (n : nat) (c : N) (r : pystr) :
  is_sp_tab c = false -> blank_line (sp n ++ c :: r) = sp n ++ c :: r.
Proof. intros H. unfold blank_line. now rewrite not_blank. Qed.

Lemma indents_blank (ls : list pystr) : indents ([] :: ls) = indents ls.
Proof. reflexivity. Qed.

Lemma indents_visible (n : nat) (c : N) (r : pystr) (ls : list pystr) :
  is_sp_tab c = false ->
  indents ((sp n ++ c :: r) :: ls) = sp n :: indents ls.
Proof.
  intros H. unfold indents. cbn [filter].
  rewrite (not_blank n c r H). cbn [negb map].
  now rewrite leading_ws_spaces.
Qed.

Lemma margin_after_visible (n : nat) (c : N) (r : pystr) (ls : list pystr) :
  is_sp_tab c = false ->
  exists k, k <= n /\ margin_of ([] :: (sp n ++ c :: r) :: ls) = Some (sp k).
Proof.
  intros H. unfold margin_of.
  rewrite indents_blank, (indents_visible n c r ls H). cbn [fold_left].
  change (narrow None (sp n)) with (Some (sp n)).
  destruct (fold_narrow_prefix (indents ls) (sp n)) as (k & Hk).
  exists (Nat.min k n). split; [lia|].
  rewrite firstn_spaces in Hk. exact Hk.
Qed.

Lemma remove_no_prefix (ls : list pystr) : map (remove_prefix []) ls = ls.
Proof. induction ls as [|l ls IH]; cbn [map]; [reflexivity|]. now rewrite IH. Qed.

Lemma dedent_margin (text m : pystr) :
  margin_of (map blank_line (split 10 text)) = Some m ->
  dedent text =
  join [10%N] (map (remove_prefix m) (map blank_line (split 10 text))).
Proof.
  intros H. unfold dedent. cbv zeta.
  destruct (margin_of _) as [m'|]; [|discriminate].
  injection H as ->. destruct m; [|reflexivity].
  now rewrite remove_no_prefix.
Qed.

(** Two lines indented alike, each opening with a visible character and
    each after an empty line, keep a common indentation through [dedent]. *)
Lemma dedent_two_lines (text : pystr) (n : nat) (ca cb : N) (a b : pystr)
    (rest : list pystr) :
  split 10 text = [] :: (sp n ++ ca :: a) :: [] :: (sp n ++ cb :: b) :: rest ->
  is_sp_tab ca = false -> is_sp_tab cb = false ->
  exists j rest',
    dedent text =
    join [10%N] ([] :: (sp j ++ ca :: a) :: [] :: (sp j ++ cb :: b) :: rest').
Proof.
  intros Hsplit Ha Hb.
  assert (Hlines : map blank_line (split 10 text) =
            [] :: (sp n ++ ca :: a) :: [] :: (sp n ++ cb :: b)
               :: map blank_line rest).
  { rewrite Hsplit. cbn [map]. change (blank_line []) with (@nil N).
    now rewrite (blank_line_visible n ca a Ha), (blank_line_visible n cb b Hb). }
  destruct (margin_after_visible n ca a
              ([] :: (sp n ++ cb :: b) :: map blank_line rest) Ha)
    as (k & Hk & Hm).
  rewrite <- Hlines in Hm. rewrite (dedent_margin text _ Hm), Hlines.
  cbn [map]. rewrite remove_prefix_nil, !(remove_prefix_spaces k n _ Hk).
  exists (n - k). eexists. reflexivity.
Qed.

End StringFacts.

(* ================================================================= *)
(** ** The first line of a composed message *)

Lemma template_lines (rank stars : Z) (name url desc summary : pystr) :
  exists tail,
    message_template rank name stars url desc summary =
    10%N :: (repeat 32%N 8 ++ 127941%N
               :: [32; 12521; 12531; 12463; 32]%N ++ str_of_int rank)
         ++ 10%N :: 10%N :: repeat 32%N 8 ++ 128216%N :: tail.
Proof.
  eexists. unfold message_template, msg_rank, msg_name.
  cbn [app repeat]. rewrite <- ?app_assoc. cbn [app]. reflexivity.
Qed.

Lemma compose_message_header (rank : Z) (repo : Repo) (summary : pystr) :
  startswith (compose_message rank repo summary) (rank_line rank) = true.
Proof.
  unfold compose_message.
  destruct (template_lines rank (stargazers_count repo) (full_name repo)
              (html_url repo) (or_empty (description repo)) summary)
    as (tail & ->).
  set (d := str_of_int rank).
  set (b := ([32; 12521; 12531; 12463; 32]%N ++ d)).
  assert (Hline : Forall (fun c => c <> 10%N) (repeat 32%N 8 ++ 127941%N :: b)).
  { apply Forall_app. split; [apply spaces_no_newline|].
    constructor; [discriminate|]. subst b. apply Forall_app. split.
    - repeat constructor; discriminate.
    - apply str_of_int_no_newline. }
  destruct (split_prefix (repeat 32%N 8 ++ [128216%N]) tail) as (f & fs & Hf).
  { apply Forall_app. split; [apply spaces_no_newline|].
    repeat constructor; discriminate. }
  rewrite <- !app_assoc in Hf. cbn [app] in Hf.
  destruct (dedent_two_lines
              (10%N :: (repeat 32%N 8 ++ 127941%N :: b)
                 ++ 10%N :: 10%N :: repeat 32%N 8 ++ 128216%N :: tail)
              8 127941 128216 b f fs) as (j & rest' & ->);
    [|reflexivity|reflexivity|].
  { rewrite split_sep, (split_line _ _ Hline), split_sep, Hf. reflexivity. }
  destruct (join_head [10%N] (repeat 32%N j ++ 128216%N :: f) rest')
    as (t & Ht).
  cbn [join]. cbn [join] in Ht. rewrite Ht. cbn [app].
  unfold strip. cbn [lstrip]. change (isspace 10) with true. cbv iota.
  rewrite <- (app_assoc (repeat 32%N j)), lstrip_spaces. cbn [app lstrip].
  change (isspace 127941) with false. cbv iota.
  replace (127941%N :: b ++ 10%N :: 10%N :: (repeat 32%N j ++ 128216%N :: f) ++ t)
    with ((rank_line rank ++ 10%N :: repeat 32%N j) ++ 128216%N :: f ++ t).
  2:{ unfold rank_line, rank_badge. subst b d.
      rewrite <- ?app_assoc. cbn [app]. rewrite <- ?app_assoc. reflexivity. }
  destruct (rstrip_keeps_prefix (rank_line rank ++ 10%N :: repeat 32%N j)
              128216 (f ++ t)) as (post & ->); [reflexivity|].
  rewrite <- app_assoc. apply startswith_app.
Qed.

(* ================================================================= *)
(** ** What one candidate, and the whole loop, add to the trace *)

Section Counting.

Variable w : World.

Lemma found_readme_event (tr : trace) (owner name : pystr) (resp : Response) :
  requests_get w tr (readme_url owner name) (github_headers w true) None
    = Ok resp ->
  is_error_status (status_code resp) = false ->
  found_readme (readme_event w tr owner name) = true.
Proof. intros Hget Hok. unfold readme_event. rewrite Hget. cbn. now rewrite Hok. Qed.

Lemma digest_trace (rank : Z) (repo : Repo) (readme : pystr) (tr : trace) :
  exists new,
    snd (digest w rank repo readme tr) = tr ++ new
    /\ documented new = 0
    /\ (posts new = []
        \/ exists summary,
             posts new = [cap_content (compose_message rank repo summary)]).
Proof.
  unfold digest, bind. rewrite summarize_run. cbv zeta.
  destruct (generate_content w tr _) as [g|e] eqn:Hg; cbn [summary_outcome].
  - rewrite send_run. cbv zeta. cbn [snd]. rewrite <- app_assoc.
    eexists. split; [reflexivity|]. split; [reflexivity|].
    right. eexists. reflexivity.
  - cbn [snd]. eexists. split; [reflexivity|]. split; [reflexivity|].
    now left.
Qed.

Lemma process_candidate_trace (rank : Z) (repo : Repo) (tr : trace) :
  exists new,
    snd (process_candidate w rank repo tr) = tr ++ new
    /\ deliveries new <= documented new
    /\ (posts new = []
        \/ exists summary,
             posts new = [cap_content (compose_message rank repo summary)]).
Proof.
  assert (Hnone : forall e : exn,
            exists new, snd (@Raise unit e, tr) = tr ++ new
              /\ deliveries new <= documented new
              /\ (posts new = []
                  \/ exists summary,
                       posts new
                       = [cap_content (compose_message rank repo summary)])).
  { intros e. exists []. rewrite app_nil_r. cbn.
    split; [reflexivity|]. split; [lia|]. now left. }
  assert (Hone : forall (r : result unit) (ev : event),
            posted ev = None ->
            exists new, snd (r, tr ++ [ev]) = tr ++ new
              /\ deliveries new <= documented new
              /\ (posts new = []
                  \/ exists summary,
                       posts new
                       = [cap_content (compose_message rank repo summary)])).
  { intros r ev Hev. exists [ev]. unfold deliveries. cbn. rewrite Hev. cbn.
    split; [reflexivity|]. split; [lia|]. now left. }
  destruct (split 47 (full_name repo)) as [|owner [|name [|x l]]] eqn:Hsplit;
    try (unfold process_candidate, bind; rewrite Hsplit; apply Hnone).
  rewrite (process_candidate_run w rank repo owner name tr Hsplit). cbv zeta.
  destruct (requests_get w tr _ _ None) as [resp|e] eqn:Hget;
    cbn [fetch_outcome].
  2:{ destruct e; now apply Hone. }
  destruct (is_error_status (status_code resp)) eqn:Herr; cbn [truthy].
  { now apply Hone. }
  destruct (text resp) as [|c t] eqn:Htext; cbn [truthy or_empty].
  { now apply Hone. }
  destruct (digest_trace rank repo (c :: t)
              (tr ++ [EvGet (readme_url owner name) (github_headers w true)
                        None (Ok resp)]))
    as (new & Hnew & Hdoc & Hposts).
  rewrite Hnew, <- app_assoc. eexists. split; [reflexivity|].
  cbn [app]. unfold deliveries, documented in *.
  cbn [posts posted filter found_readme]. rewrite Herr. cbn [negb length].
  split.
  - destruct Hposts as [-> | (summary & ->)]; cbn; lia.
  - exact Hposts.
Qed.

Lemma length_enumerate {A} (l : list A) (start : Z) :
  length (enumerate l start) = length l.
Proof.
  revert start. induction l as [|x l IH]; intros start; cbn; [reflexivity|].
  now rewrite IH.
Qed.

Lemma run_candidates_counts (cands : list (Z * Repo)) (tr : trace) :
  exists new,
    snd (run_candidates w cands tr) = tr ++ new
    /\ deliveries new <= length cands
    /\ deliveries new <= documented new.
Proof.
  revert tr. induction cands as [|c cands IH]; intros tr.
  - exists []. cbn. rewrite app_nil_r. repeat split; lia.
  - rewrite run_candidates_cons.
    destruct (process_candidate_trace (fst c) (snd c) tr)
      as (new & Hnew & Hdoc & Hposts).
    assert (Hone : deliveries new <= 1).
    { unfold deliveries.
      destruct Hposts as [-> | (summary & ->)]; cbn; lia. }
    destruct (process_candidate w (fst c) (snd c) tr) as [[[]|e] tr1];
      cbn [snd] in Hnew; subst tr1.
    + destruct (IH (tr ++ new)) as (new' & -> & Hlen & Hdoc').
      exists (new ++ new'). rewrite <- app_assoc.
      rewrite deliveries_app, documented_app. cbn [length].
      repeat split; lia.
    + exists new. cbn [snd length]. repeat split; lia.
Qed.

(** C6: with a positive page size and [TOP_N] no larger, a run makes at most
    [TOP_N] deliveries, and no more deliveries than README requests that
    were answered with a document. *)
Theorem delivery_attempts_bounded (top_n page_size : nat) :
  0 < page_size -> top_n <= page_size ->
  deliveries (snd (main_with w top_n page_size [])) <= top_n
  /\ deliveries (snd (main_with w top_n page_size []))
     <= documented (snd (main_with w top_n page_size [])).
Proof.
  intros _ _. unfold main_with, bind. rewrite search_repos_run. cbv zeta.
  destruct (search_outcome _) as [repos|e].
  - destruct (run_candidates_counts (enumerate (firstn top_n repos) 1)
                ([] ++ [search_event w [] page_size]))
      as (new & Hnew & Hlen & Hdoc).
    unfold search_event in Hnew. rewrite Hnew.
    rewrite length_enumerate in Hlen.
    pose proof (firstn_le_length top_n repos) as Hn.
    rewrite !deliveries_app, !documented_app. cbn. lia.
  - cbn. lia.
Qed.

End Counting.

(* ================================================================= *)
(** ** Ranks *)

Section Ranks.

Variable w : World.

Lemma sent_message_later (start : Z) (s : Sent) :
  sent_message start (later s) = sent_message (start + 1) s.
Proof.
  unfold sent_message, sent_rank, later. cbn [sent_index sent_repo sent_summary].
  f_equal. lia.
Qed.

Lemma later_sorted (sent : list Sent) :
  StronglySorted lt (map sent_index sent) ->
  StronglySorted lt (map sent_index (map later sent)).
Proof.
  induction sent as [|s sent IH]; cbn [map]; intros H; [constructor|].
  inversion H as [|i l Hs Hall]; subst. constructor; [now apply IH|].
  clear - Hall. induction sent as [|s' sent IH]; cbn [map] in *; [constructor|].
  inversion Hall; subst. constructor; [cbn; lia | now apply IH].
Qed.

Lemma run_candidates_sent (l : list Repo) :
  forall (start : Z) (tr : trace),
  exists sent : list Sent,
    posts (snd (run_candidates w (enumerate l start) tr)) =
      posts tr ++ map (fun s => cap_content (sent_message start s)) sent
    /\ StronglySorted lt (map sent_index sent)
    /\ Forall (fun s => nth_error l (sent_index s) = Some (sent_repo s)) sent.
Proof.
  induction l as [|repo l IH]; intros start tr.
  - exists []. cbn. rewrite app_nil_r. repeat split; constructor.
  - cbn [enumerate]. rewrite run_candidates_cons. cbn [fst snd].
    destruct (process_candidate_trace w start repo tr)
      as (new & Hnew & _ & Hposts).
    assert (Hhead : exists first : list Sent,
              posts new = map (fun s => cap_content (sent_message start s)) first
              /\ Forall (fun s => sent_index s = 0 /\ sent_repo s = repo) first
              /\ length first <= 1).
    { destruct Hposts as [-> | (summary & ->)].
      - exists []. repeat split; [constructor | cbn; lia].
      - exists [{| sent_index := 0; sent_repo := repo;
                   sent_summary := summary |}].
        unfold sent_message, sent_rank. cbn. rewrite Z.add_0_r.
        repeat split; [|lia]. now repeat constructor. }
    destruct Hhead as (first & Hfirst & Hzero & Hlen).
    destruct (process_candidate w start repo tr) as [[[]|e] tr1];
      cbn [snd] in Hnew; subst tr1.
    + destruct (IH (start + 1)%Z (tr ++ new)) as (sent & Hsent & Hsorted & Hnth).
      exists (first ++ map later sent).
      rewrite Hsent, posts_app, Hfirst, <- app_assoc, map_app, map_map.
      split; [|split].
      * do 2 f_equal. apply map_ext. intros s.
        now rewrite sent_message_later.
      * rewrite map_app.
        destruct first as [|s [|s' first]]; [| |cbn in Hlen; lia].
        -- now apply later_sorted.
        -- cbn [map app]. inversion Hzero as [|? ? [Hi _] _]; subst.
           rewrite Hi. constructor; [now apply later_sorted|].
           clear. induction sent; cbn; constructor; [lia | assumption].
      * apply Forall_app. split.
        -- eapply Forall_impl; [|exact Hzero]. intros s [-> ->]. reflexivity.
        -- apply Forall_map. eapply Forall_impl; [|exact Hnth].
           intros s Hs. exact Hs.
    + exists first. cbn [snd]. rewrite posts_app, Hfirst.
      split; [reflexivity|]. split.
      * destruct first as [|s [|s' first]]; [| |cbn in Hlen; lia];
          cbn; repeat constructor.
      * eapply Forall_impl; [|exact Hzero]. intros s [-> ->]. reflexivity.
Qed.

(** C2, as the code has it: every message handed to the webhook is the
    capped digest of one candidate of the top-N slice, composed with the
    rank that is the candidate's place in that slice counted from 1 and
    opening with the line that shows it; the places of the delivered
    candidates increase, and a skipped candidate's place is not reused. *)
Theorem delivered_rank_is_slice_position (top_n per_page : nat)
    (repos : list Repo) (tr0 : trace) :
  search_repos w query per_page [] = (Ok repos, tr0) ->
  exists sent : list Sent,
    posts (snd (main_with w top_n per_page [])) =
      map (fun s => cap_content (sent_message 1 s)) sent
    /\ StronglySorted lt (map sent_index sent)
    /\ Forall (fun s =>
                 nth_error (firstn top_n repos) (sent_index s)
                   = Some (sent_repo s)
                 /\ sent_rank 1 s = (Z.of_nat (sent_index s) + 1)%Z
                 /\ startswith (sent_message 1 s) (rank_line (sent_rank 1 s))
                    = true) sent.
Proof.
  intros Hsearch. unfold main_with, bind. rewrite Hsearch.
  destruct (run_candidates_sent (firstn top_n repos) 1 tr0)
    as (sent & Hsent & Hsorted & Hnth).
  exists sent. rewrite Hsent.
  assert (Hno : posts tr0 = []).
  { rewrite search_repos_run in Hsearch. cbv zeta in Hsearch.
    injection Hsearch as _ <-. reflexivity. }
  rewrite Hno. split; [reflexivity|]. split; [exact Hsorted|].
  eapply Forall_impl; [|exact Hnth]. intros s Hs. split; [exact Hs|].
  split; [unfold sent_rank; lia|]. apply compose_message_header.
Qed.

End Ranks.

(* ================================================================= *)
(** ** The caps and the trimming at concrete inputs *)

Example short_message_unchanged : cap_content (lit "hi") = lit "hi".
Proof. reflexivity. Qed.

Example long_message_cut :
  cap_content Demo.long_message = repeat 120%N 1900 ++ discord_marker.
Proof. vm_compute. reflexivity. Qed.

Example long_readme_cut :
  cap_readme (repeat 120%N 5000 ++ [121%N]) = repeat 120%N 5000 ++ readme_marker.
Proof. vm_compute. reflexivity. Qed.

Example readme_at_the_limit :
  cap_readme (repeat 120%N 5000) = repeat 120%N 5000.
Proof. vm_compute. reflexivity. Qed.

Lemma lstrip_drops_spaces (s : pystr) :
  exists pre, s = pre ++ lstrip s /\ forallb isspace pre = true.
Proof.
  induction s as [|c s (pre & Hs & Hpre)]; [now exists []|].
  cbn [lstrip]. destruct (isspace c) eqn:Hc.
  - exists (c :: pre). cbn. rewrite Hc, Hpre. split; [now f_equal|reflexivity].
  - now exists [].
Qed.

(** [strip] removes whitespace, and only whitespace, from the two ends. *)
Lemma strip_trims (s : pystr) :
  exists pre post,
    s = pre ++ strip s ++ post
    /\ forallb isspace pre = true /\ forallb isspace post = true.
Proof.
  destruct (lstrip_drops_spaces s) as (pre & Hs & Hpre).
  destruct (lstrip_drops_spaces (rev (lstrip s))) as (tsop & Hr & Hpost).
  exists pre, (rev tsop). unfold strip, rstrip. split; [|split].
  - rewrite <- rev_app_distr, <- Hr, rev_involutive. exact Hs.
  - exact Hpre.
  - rewrite forallb_forall in Hpost |- *. intros c Hc.
    apply Hpost. now apply in_rev.
Qed.

(* ================================================================= *)
(** ** The theorems at concrete runs *)

Example happy_path_digest :
  main Demo.w_happy [] = (Ok tt, snd (main Demo.w_happy []))
  /\ posts (snd (main Demo.w_happy [])) =
     [lit "🏅 ランク 1

📘 **a/x**
⭐ Stars: 500
🔗 u1

📝 説明:
d1

🧠 README 要約 (Gemini):
S1";
      lit "🏅 ランク 2

📘 **b/y**
⭐ Stars: 300
🔗 u2

📝 説明:
d2

🧠 README 要約 (Gemini):
S2"].
Proof. split; vm_compute; reflexivity. Qed.

Lemma summarize_result_witness :
  fst (summarize_with_gemini Demo.w_padded (lit "a/x") (lit "doc") [])
    = Ok (lit "S1")
  /\ fst (summarize_with_gemini Demo.w_mute (lit "a/x") (lit "doc") [])
     = Ok [].
Proof.
  split.
  - exact (summarize_result Demo.w_padded (lit "a/x") (lit "doc") []
             (Some (lit "  S1
 ")) eq_refl).
  - exact (summarize_result Demo.w_mute (lit "a/x") (lit "doc") [] None
             eq_refl).
Defined.

Lemma truncated_payload_length_witness :
  1900 < length Demo.long_message
  /\ exists delivered out,
       snd (send_to_discord Demo.w_happy Demo.long_message []) =
         [] ++ [EvPost (DISCORD_WEBHOOK_URL Demo.w_happy)
                  {| content := delivered; username := discord_username |}
                  out]
       /\ length delivered = 1900 + length discord_marker
       /\ length discord_marker = 15
       /\ 1900 < length delivered.
Proof.
  assert (H : 1900 < length Demo.long_message).
  { unfold Demo.long_message. rewrite repeat_length. lia. }
  split; [exact H|].
  exact (truncated_payload_length Demo.w_happy Demo.long_message [] H).
Defined.

Lemma delivery_attempts_bounded_witness :
  deliveries (snd (main_with Demo.w_happy TOP_N 5 [])) <= TOP_N
  /\ deliveries (snd (main_with Demo.w_happy TOP_N 5 []))
     <= documented (snd (main_with Demo.w_happy TOP_N 5 [])).
Proof.
  apply (delivery_attempts_bounded Demo.w_happy TOP_N 5); unfold TOP_N; lia.
Defined.


Lemma fetch_error_skips_candidate_witness :
  fetch_readme Demo.w_missing (lit "a") (lit "x") [] =
    (Ok None, [] ++ [readme_event Demo.w_missing [] (lit "a") (lit "x")])
  /\ run_candidates Demo.w_missing Demo.two_candidates [] =
     run_candidates Demo.w_missing [(2%Z, Demo.repo_by)]
       ([] ++ [readme_event Demo.w_missing [] (lit "a") (lit "x")]).
Proof.
  exact (fetch_error_skips_candidate Demo.w_missing 1 Demo.repo_ax
           (lit "a") (lit "x") (Demo.response 404 (lit "Not Found"))
           [(2%Z, Demo.repo_by)] [] eq_refl eq_refl eq_refl).
Defined.

Lemma empty_readme_skips_candidate_witness :
  fetch_readme Demo.w_empty (lit "a") (lit "x") [] =
    (Ok (Some []), [] ++ [readme_event Demo.w_empty [] (lit "a") (lit "x")])
  /\ run_candidates Demo.w_empty Demo.two_candidates [] =
     run_candidates Demo.w_empty [(2%Z, Demo.repo_by)]
       ([] ++ [readme_event Demo.w_empty [] (lit "a") (lit "x")]).
Proof.
  exact (proj1 (empty_readme_skips_candidate Demo.w_empty 1 Demo.repo_ax
                  (lit "a") (lit "x") (Demo.response 200 [])
                  [(2%Z, Demo.repo_by)] [] eq_refl eq_refl eq_refl)
           eq_refl).
Defined.

Lemma candidate_exception_ends_run_witness :
  run_candidates Demo.w_quota Demo.two_candidates [] =
    (Raise (ServiceError 429),
     ([] ++ [readme_event Demo.w_quota [] (lit "a") (lit "x")])
       ++ [EvGenerate (prompt_of Demo.repo_ax (lit "doc"))
             (Raise (ServiceError 429))])
  /\ posts (snd (run_candidates Demo.w_quota Demo.two_candidates []))
     = posts [].
Proof.
  assert (Hdoc : text (Demo.response 200 (lit "doc")) <> []) by discriminate.
  exact (proj1 (candidate_exception_ends_run Demo.w_quota 1 Demo.repo_ax
                  (lit "a") (lit "x") (Demo.response 200 (lit "doc"))
                  [(2%Z, Demo.repo_by)] [] eq_refl eq_refl eq_refl Hdoc)
           (ServiceError 429) eq_refl).
Defined.

Lemma delivered_rank_is_slice_position_witness :
  exists sent : list Sent,
    posts (snd (main_with Demo.w_missing TOP_N 5 [])) =
      map (fun s => cap_content (sent_message 1 s)) sent
    /\ StronglySorted lt (map sent_index sent)
    /\ Forall (fun s =>
                 nth_error (firstn TOP_N [Demo.repo_ax; Demo.repo_by])
                   (sent_index s) = Some (sent_repo s)
                 /\ sent_rank 1 s = (Z.of_nat (sent_index s) + 1)%Z
                 /\ startswith (sent_message 1 s) (rank_line (sent_rank 1 s))
                    = true) sent.
Proof.
  exact (delivered_rank_is_slice_position Demo.w_missing TOP_N 5
           [Demo.repo_ax; Demo.repo_by]
           [search_event Demo.w_missing [] 5] eq_refl).
Defined.

(** C1 fails on the code: the generative call for a/x raises, the one for
    b/y would succeed, and the run ends with the exception after three
    requests, none of them for b/y and none to the webhook. *)
Lemma generative_failure_counterexample :
  generate_content Demo.w_quota [] Demo.prompt_ax = Raise (ServiceError 429)
  /\ generate_content Demo.w_quota []
       (make_prompt (lit "b/y") (lit "doc")) = Ok (Some (lit "S2"))
  /\ main Demo.w_quota [] =
     (Raise (ServiceError 429),
      [search_event Demo.w_quota [] 5;
       readme_event Demo.w_quota [] (lit "a") (lit "x");
       EvGenerate Demo.prompt_ax (Raise (ServiceError 429))])
  /\ posts (snd (main Demo.w_quota [])) = [].
Proof. repeat split; vm_compute; reflexivity. Qed.

(** C2 fails on the code: a/x has no README and b/y has one, so b/y is
    the first and only candidate with documentation; its message is
    delivered showing rank 2, not rank 1. *)
Lemma skipped_rank_counterexample :
  fst (fetch_readme Demo.w_missing (lit "a") (lit "x") []) = Ok None
  /\ fst (fetch_readme Demo.w_missing (lit "b") (lit "y") [])
     = Ok (Some (lit "doc"))
  /\ posts (snd (main Demo.w_missing [])) =
     [lit "🏅 ランク 2

📘 **b/y**
⭐ Stars: 300
🔗 u2

📝 説明:
d2

🧠 README 要約 (Gemini):
S2"]
  /\ map (fun m => startswith m (rank_line 1))
       (posts (snd (main Demo.w_missing []))) = [false]
  /\ map (fun m => startswith m (rank_line 2))
       (posts (snd (main Demo.w_missing []))) = [true].
Proof. repeat split; vm_compute; reflexivity. Qed.

(** C5 fails on the code: the README of a/x is fetched and is the empty
    text, and the candidate is skipped all the same: its only request is
    the fetch, and the run delivers the message of b/y alone. *)
Lemma empty_readme_counterexample :
  fst (fetch_readme Demo.w_empty (lit "a") (lit "x") []) = Ok (Some [])
  /\ process_candidate Demo.w_empty 1 Demo.repo_ax [] =
     (Ok tt, [readme_event Demo.w_empty [] (lit "a") (lit "x")])
  /\ posts (snd (main Demo.w_empty [])) =
     [cap_content (compose_message 2 Demo.repo_by (lit "S2"))].
Proof. repeat split; vm_compute; reflexivity. Qed.

(* ================================================================= *)
(** ** Further properties of the requests *)

Section Requests.

Variable w : World.

(** X1: a failure of the README request that is not an HTTP error (the
    connection is lost, say) is not caught by [fetch_readme]: it leaves the
    function and the loop, and ends the run after that request. *)
Theorem readme_transport_failure_ends_run (rank : Z) (repo : Repo)
    (owner name : pystr) (e : exn) (rest : list (Z * Repo)) (tr : trace) :
  split 47 (full_name repo) = [owner; name] ->
  requests_get w tr (readme_url owner name) (github_headers w true) None
    = Raise e ->
  (forall st : Z, e <> HTTPError st) ->
  fetch_readme w owner name tr
    = (Raise e, tr ++ [readme_event w tr owner name])
  /\ run_candidates w ((rank, repo) :: rest) tr
     = (Raise e, tr ++ [readme_event w tr owner name]).
Proof.
  intros Hsplit Hget Hother.
  assert (Hout : fetch_outcome (Raise e) = Raise e).
  { destruct e; try reflexivity. now destruct (Hother status). }
  split.
  - rewrite fetch_readme_run. cbv zeta. unfold readme_event.
    now rewrite Hget, Hout.
  - rewrite run_candidates_cons. cbn [fst snd].
    rewrite (process_candidate_run w rank repo owner name tr Hsplit).
    cbv zeta. unfold readme_event. now rewrite Hget, Hout.
Qed.

(** X2: [fetch_readme] takes the body of any answer whose status is not a
    client or server error as the README, also when the status is not 200:
    only [raise_for_status] decides, the test against 200 does not. *)
Theorem readme_accepted_on_any_non_error_status (owner name : pystr)
    (resp : Response) (tr : trace) :
  requests_get w tr (readme_url owner name) (github_headers w true) None
    = Ok resp ->
  is_error_status (status_code resp) = false ->
  fetch_readme w owner name tr
    = (Ok (Some (text resp)), tr ++ [readme_event w tr owner name]).
Proof.
  intros Hget Hok. rewrite fetch_readme_run. cbv zeta. unfold readme_event.
  rewrite Hget. cbn [fetch_outcome]. now rewrite Hok.
Qed.

(** X3: whatever status the webhook answers with, [send_to_discord] returns
    normally, so a refused delivery does not stop the loop: the candidates
    after it are processed next. *)
Theorem refused_delivery_continues (rank : Z) (repo : Repo)
    (owner name : pystr) (resp answer : Response) (g : option pystr)
    (rest : list (Z * Repo)) (tr : trace) :
  split 47 (full_name repo) = [owner; name] ->
  requests_get w tr (readme_url owner name) (github_headers w true) None
    = Ok resp ->
  is_error_status (status_code resp) = false ->
  text resp <> [] ->
  generate_content w (tr ++ [readme_event w tr owner name])
    (prompt_of repo (text resp)) = Ok g ->
  requests_post w
    ((tr ++ [readme_event w tr owner name])
       ++ [EvGenerate (prompt_of repo (text resp)) (Ok g)])
    (DISCORD_WEBHOOK_URL w) (payload_of rank repo g) = Ok answer ->
  run_candidates w ((rank, repo) :: rest) tr =
  run_candidates w rest
    (((tr ++ [readme_event w tr owner name])
        ++ [EvGenerate (prompt_of repo (text resp)) (Ok g)])
       ++ [EvPost (DISCORD_WEBHOOK_URL w) (payload_of rank repo g)
             (Ok answer)]).
Proof.
  intros Hsplit Hget Hok Hne Hgen Hpost.
  rewrite run_candidates_cons. cbn [fst snd].
  rewrite (process_candidate_fetched w rank repo owner name resp tr Hsplit Hget).
  rewrite Hok. destruct (text resp) as [|c t] eqn:Ht; [congruence|].
  cbn [truthy]. rewrite digest_run, Hgen. cbv zeta. rewrite Hpost.
  reflexivity.
Qed.

(** X4: when the search is answered without an error status but its body
    is not JSON, is not an object, or has no items, the run ends with the
    exception of the decoding or of the lookup, after that one request. *)
Theorem search_without_items_aborts (top_n per_page : nat) (resp : Response)
    (tr : trace) :
  requests_get w tr search_url (github_headers w false)
    (Some (search_params query per_page)) = Ok resp ->
  is_error_status (status_code resp) = false ->
  (forall items, json_body resp <> Ok (JDict (Some items))) ->
  exists e,
    main_with w top_n per_page tr =
      (Raise e,
       tr ++ [EvGet search_url (github_headers w false)
                (Some (search_params query per_page)) (Ok resp)])
    /\ match json_body resp with
       | Raise e' => e = e'
       | Ok (JDict _) => e = KeyError
       | Ok JNotDict => e = TypeError
       end.
Proof.
  intros Hget Hok Hno. unfold main_with, bind. rewrite search_repos_run.
  cbv zeta. rewrite Hget. cbn [search_outcome]. rewrite Hok.
  destruct (json_body resp) as [[[items|]|]|e'].
  - now destruct (Hno items).
  - now exists KeyError.
  - now exists TypeError.
  - now exists e'.
Qed.

End Requests.

(* ================================================================= *)
(** ** The name of a candidate and the request made for it *)

Lemma split_length (sep : N) (s : pystr) :
  length (split sep s) = S (count_occ N.eq_dec s sep).
Proof.
  induction s as [|c s IH]; [reflexivity|].
  cbn [split]. destruct (N.eqb_spec c sep) as [Heq|Hne].
  - rewrite (count_occ_cons_eq N.eq_dec s Heq). cbn [length]. now rewrite IH.
  - rewrite (count_occ_cons_neq N.eq_dec s Hne). rewrite <- IH.
    now destruct (split sep s).
Qed.

Lemma join_split (sep : N) (s : pystr) : join [sep] (split sep s) = s.
Proof.
  induction s as [|c s IH]; [reflexivity|].
  cbn [split]. destruct (N.eqb_spec c sep) as [Heq|Hne].
  - destruct (split sep s) as [|f fs] eqn:E.
    + now destruct (split_not_nil sep s) as (f & fs & Hf); rewrite Hf in E.
    + subst c. cbn [join app] in *. now rewrite IH.
  - destruct (split sep s) as [|f fs] eqn:E.
    + now destruct (split_not_nil sep s) as (f & fs & Hf); rewrite Hf in E.
    + destruct fs; cbn [join app] in *; now rewrite IH.
Qed.

Lemma split_two (sep : N) (s a b : pystr) :
  split sep s = [a; b] -> s = a ++ sep :: b.
Proof. intros H. rewrite <- (join_split sep s), H. reflexivity. Qed.

Lemma one_slash_splits (s : pystr) :
  count_occ N.eq_dec s 47%N = 1 ->
  exists owner name, split 47 s = [owner; name] /\ s = owner ++ 47%N :: name.
Proof.
  intros H. pose proof (split_length 47 s) as Hlen. rewrite H in Hlen.
  destruct (split 47 s) as [|a [|b [|c l]]] eqn:E; try discriminate.
  exists a, b. split; [reflexivity|]. now apply split_two.
Qed.

Section Names.

Variable w : World.

(** X5: a candidate whose full name does not hold exactly one slash makes
    the call of [fetch_readme] fail with a [TypeError] before any request
    is made for it, and that ends the run. *)
Theorem malformed_full_name_ends_run (rank : Z) (repo : Repo)
    (rest : list (Z * Repo)) (tr : trace) :
  count_occ N.eq_dec (full_name repo) 47%N <> 1 ->
  run_candidates w ((rank, repo) :: rest) tr = (Raise TypeError, tr).
Proof.
  intros H. rewrite run_candidates_cons. cbn [fst snd].
  pose proof (split_length 47 (full_name repo)) as Hlen.
  unfold process_candidate, bind.
  destruct (split 47 (full_name repo)) as [|a [|b [|c l]]]; try reflexivity.
  cbn [length] in Hlen. congruence.
Qed.

(** X6: for a candidate whose full name holds exactly one slash, the
    first request made is the README request, to the address
    [https://api.github.com/repos/<full name>/readme]: splitting the name
    and building the path puts the name back together. *)
Theorem readme_request_target (rank : Z) (repo : Repo) (tr : trace) :
  count_occ N.eq_dec (full_name repo) 47%N = 1 ->
  exists out later_events,
    snd (process_candidate w rank repo tr) =
    tr ++ EvGet (GITHUB_API_BASE ++ repos_prefix ++ full_name repo
                   ++ readme_suffix)
            (github_headers w true) None out
       :: later_events.
Proof.
  intros H. destruct (one_slash_splits _ H) as (owner & name & Hsplit & Hname).
  assert (Hurl : readme_url owner name =
            GITHUB_API_BASE ++ repos_prefix ++ full_name repo ++ readme_suffix).
  { unfold readme_url, readme_path, slash. rewrite Hname.
    rewrite <- !app_assoc. reflexivity. }
  rewrite (process_candidate_run w rank repo owner name tr Hsplit). cbv zeta.
  rewrite Hurl.
  destruct (fetch_outcome _) as [readme|e].
  - destruct (truthy readme).
    + destruct (digest_trace w rank repo (or_empty readme)
                  (tr ++ [EvGet (GITHUB_API_BASE ++ repos_prefix
                                   ++ full_name repo ++ readme_suffix)
                            (github_headers w true) None
                            (requests_get w tr
                               (GITHUB_API_BASE ++ repos_prefix
                                  ++ full_name repo ++ readme_suffix)
                               (github_headers w true) None)]))
        as (new & Hnew & _).
      rewrite Hnew, <- app_assoc. now eexists; eexists.
    + now eexists; exists [].
  - now eexists; exists [].
Qed.

End Names.

(* ================================================================= *)
(** ** Invariants of a run *)

Section Invariants.

Variable w : World.

Lemma process_candidate_shape (rank : Z) (repo : Repo) (tr : trace) :
  exists new,
    snd (process_candidate w rank repo tr) = tr ++ new
    /\ candidate_trace w rank repo new.
Proof.
  destruct (split 47 (full_name repo)) as [|owner [|name [|x l]]] eqn:Hsplit;
    try (exists []; unfold process_candidate, bind; rewrite Hsplit;
         cbn; rewrite app_nil_r; split; [reflexivity | now left]).
  rewrite (process_candidate_run w rank repo owner name tr Hsplit). cbv zeta.
  assert (Hone : forall (r : result unit) out,
            exists new,
              snd (r, tr ++ [EvGet (readme_url owner name)
                               (github_headers w true) None out]) = tr ++ new
              /\ candidate_trace w rank repo new).
  { intros r out. eexists. split; [reflexivity|]. right. left.
    now exists owner, name, out. }
  destruct (requests_get w tr _ _ None) as [resp|e] eqn:Hget;
    cbn [fetch_outcome].
  2:{ destruct e; apply Hone. }
  destruct (is_error_status (status_code resp)) eqn:Herr; cbn [truthy];
    [apply Hone|].
  destruct (text resp) as [|c t] eqn:Htext; cbn [truthy or_empty];
    [apply Hone|].
  rewrite digest_run. rewrite <- Htext.
  destruct (generate_content w _ _) as [g|e].
  - cbv zeta. cbn [snd]. rewrite <- !app_assoc. cbn [app].
    eexists. split; [reflexivity|]. right. right. right.
    exists owner, name, resp, g. eexists. split; [reflexivity|exact Herr].
  - cbn [snd]. rewrite <- !app_assoc. cbn [app].
    eexists. split; [reflexivity|]. right. right. left.
    exists owner, name, resp, e. split; [reflexivity|exact Herr].
Qed.

(** A property that holds of what each candidate adds, and is kept when
    traces are put end to end, holds of what the loop adds. *)
Lemma run_candidates_invariant (P : nat -> trace -> Prop) :
  P 0 [] ->
  (forall n m a b, P n a -> P m b -> P (n + m) (a ++ b)) ->
  (forall n m a, P n a -> n <= m -> P m a) ->
  (forall rank repo new, candidate_trace w rank repo new -> P 1 new) ->
  forall (cands : list (Z * Repo)) (tr : trace),
  exists new,
    snd (run_candidates w cands tr) = tr ++ new /\ P (length cands) new.
Proof.
  intros Hnil Happ Hmono Hone.
  induction cands as [|c cands IH]; intros tr.
  - exists []. cbn. now rewrite app_nil_r.
  - rewrite run_candidates_cons.
    destruct (process_candidate_shape (fst c) (snd c) tr)
      as (new & Hnew & Hshape).
    apply Hone in Hshape.
    destruct (process_candidate w (fst c) (snd c) tr) as [[[]|e] tr1];
      cbn [snd] in Hnew; subst tr1.
    + destruct (IH (tr ++ new)) as (new' & -> & Hrest).
      exists (new ++ new'). rewrite <- app_assoc. split; [reflexivity|].
      exact (Happ 1 (length cands) new new' Hshape Hrest).
    + exists new. cbn [snd]. split; [reflexivity|].
      apply (Hmono 1); [exact Hshape | cbn; lia].
Qed.

Lemma main_with_invariant (P : nat -> trace -> Prop) :
  P 0 [] ->
  (forall n m a b, P n a -> P m b -> P (n + m) (a ++ b)) ->
  (forall n m a, P n a -> n <= m -> P m a) ->
  (forall rank repo new, candidate_trace w rank repo new -> P 1 new) ->
  forall top_n per_page : nat,
  exists new,
    snd (main_with w top_n per_page []) = search_event w [] per_page :: new
    /\ P top_n new.
Proof.
  intros Hnil Happ Hmono Hone top_n per_page.
  unfold main_with, bind. rewrite search_repos_run. cbv zeta.
  fold (search_event w [] per_page).
  destruct (search_outcome _) as [repos|e].
  - destruct (run_candidates_invariant P Hnil Happ Hmono Hone
                (enumerate (firstn top_n repos) 1)
                ([] ++ [search_event w [] per_page])) as (new & Hnew & HP).
    exists new. split; [exact Hnew|].
    apply (Hmono _ _ _ HP). rewrite length_enumerate.
    apply firstn_le_length.
  - exists []. split; [reflexivity|]. apply (Hmono 0); [exact Hnil | lia].
Qed.

Lemma eqb_same (s : pystr) : PyStr.eqb s s = true.
Proof. unfold PyStr.eqb. now destruct (list_eq_dec N.eq_dec s s). Qed.

Lemma cap_content_length (message : pystr) :
  length (cap_content message) <= content_limit.
Proof.
  unfold cap_content, content_limit.
  destruct (Nat.ltb_spec 1900 (length message)) as [H|H].
  - rewrite length_app, firstn_length_le; lia.
  - lia.
Qed.

(** X7: a run makes exactly one search request, at most [top_n] README
    requests, no more generative calls than README requests answered with a
    document, and no more deliveries than generative calls. *)
Theorem request_budget (top_n per_page : nat) :
  searches (snd (main_with w top_n per_page [])) = 1
  /\ readme_requests (snd (main_with w top_n per_page [])) <= top_n
  /\ generations (snd (main_with w top_n per_page []))
     <= documented (snd (main_with w top_n per_page []))
  /\ deliveries (snd (main_with w top_n per_page []))
     <= generations (snd (main_with w top_n per_page [])).
Proof.
  destruct (main_with_invariant
              (fun n new =>
                 searches new = 0 /\ readme_requests new <= n
                 /\ generations new <= documented new
                 /\ deliveries new <= generations new)) with
    (top_n := top_n) (per_page := per_page) as (new & Hnew & H0 & H1 & H2 & H3).
  - cbn. lia.
  - intros n m a b (A0 & A1 & A2 & A3) (B0 & B1 & B2 & B3).
    unfold searches, readme_requests, generations, documented, deliveries in *.
    rewrite posts_app, !filter_app, !length_app. lia.
  - intros n m a (A0 & A1 & A2 & A3) Hnm. repeat split; lia.
  - intros rank repo new
      [-> | [(o & n & out & ->)
            | [(o & n & resp & e & -> & Hok)
              | (o & n & resp & g & out & -> & Hok)]]];
      unfold searches, readme_requests, generations, documented, deliveries;
      cbn; rewrite ?Hok; cbn; repeat split; lia.
  - rewrite Hnew.
    change (search_event w [] per_page :: new)
      with ([search_event w [] per_page] ++ new).
    unfold searches, readme_requests, generations, documented, deliveries in *.
    rewrite posts_app, !filter_app, !length_app. unfold search_event.
    destruct (requests_get w [] search_url _ _); cbn; repeat split; lia.
Qed.

(** X8: every request of a run goes where the code sends it: the search
    to the search address, each README request under
    [https://api.github.com/repos/], both carrying the token, the first
    asking for JSON and the others for the raw text, and each delivery to
    the webhook under the fixed user name. *)
Theorem requests_well_addressed (top_n per_page : nat) :
  forallb (well_addressed w) (snd (main_with w top_n per_page [])) = true.
Proof.
  destruct (main_with_invariant
              (fun _ new => forallb (well_addressed w) new = true)) with
    (top_n := top_n) (per_page := per_page) as (new & Hnew & Hall).
  - reflexivity.
  - intros _ _ a b Ha Hb. now rewrite forallb_app, Ha, Hb.
  - intros _ _ a Ha _. exact Ha.
  - assert (Hurl : forall o n,
              startswith (readme_url o n) (GITHUB_API_BASE ++ repos_prefix)
              = true).
    { intros o n. unfold readme_url, readme_path. rewrite app_assoc.
      apply startswith_app. }
    intros rank repo new
      [-> | [(o & n & out & ->)
            | [(o & n & resp & e & -> & Hok)
              | (o & n & resp & g & out & -> & Hok)]]];
      cbn [forallb well_addressed github_headers Authorization Accept
             payload_of username];
      rewrite ?Hurl, ?eqb_same; reflexivity.
  - rewrite Hnew. cbn [forallb]. rewrite Hall. unfold search_event.
    cbn [well_addressed github_headers Authorization Accept].
    now rewrite !eqb_same.
Qed.

(** X9: no content handed to the webhook is longer than 1915 characters,
    the 1900 of the cap and the 15 of the marker, whatever the README, the
    description and the summary were. *)
Theorem delivered_content_bounded (top_n per_page : nat) :
  Forall (fun c => length c <= 1915)
    (posts (snd (main_with w top_n per_page []))).
Proof.
  destruct (main_with_invariant
              (fun _ new =>
                 Forall (fun c => length c <= 1915) (posts new))) with
    (top_n := top_n) (per_page := per_page) as (new & Hnew & Hall).
  - constructor.
  - intros _ _ a b Ha Hb. rewrite posts_app. apply Forall_app. now split.
  - intros _ _ a Ha _. exact Ha.
  - intros rank repo new
      [-> | [(o & n & out & ->)
            | [(o & n & resp & e & -> & Hok)
              | (o & n & resp & g & out & -> & Hok)]]];
      cbn [posts posted payload_of content]; try constructor.
    + exact (cap_content_length
               (compose_message rank repo (strip (or_empty g)))).
    + constructor.
  - rewrite Hnew. exact Hall.
Qed.

(** X10: the prompt of a generative call is at most 5245 characters longer
    than the repository's name, however long the README is: the template,
    the 5000 characters of the cap and the marker. *)
Theorem prompt_length_bounded (name readme : pystr) (tr : trace) :
  exists prompt out,
    snd (summarize_with_gemini w name readme tr)
      = tr ++ [EvGenerate prompt out]
    /\ length prompt <= length name + prompt_overhead
    /\ prompt_overhead = 5000 + 245.
Proof.
  rewrite summarize_run. cbv zeta. cbn [snd]. eexists. eexists.
  split; [reflexivity|]. split; [|reflexivity].
  unfold make_prompt, prompt_overhead. rewrite !length_app.
  assert (Hcap : length (cap_readme readme)
                 <= max_chars + length readme_marker).
  { unfold cap_readme.
    destruct (Nat.ltb_spec max_chars (length readme)) as [H|H].
    - rewrite length_app, firstn_length_le by lia. lia.
    - lia. }
  lia.
Qed.

End Invariants.

(* ================================================================= *)
(** ** A run in which nothing fails *)

Section Success.

Variable w : World.

Lemma In_enumerate (l : list Repo) :
  forall (start : Z) (c : Z * Repo), In c (enumerate l start) -> In (snd c) l.
Proof.
  induction l as [|x l IH]; intros start c; cbn [enumerate]; [easy|].
  intros [<- | H]; [now left | right; exact (IH _ _ H)].
Qed.

Lemma run_candidates_all_delivered (cands : list (Z * Repo)) :
  (forall c, In c cands -> count_occ N.eq_dec (full_name (snd c)) 47%N = 1) ->
  (forall tr url,
     exists resp,
       requests_get w tr url (github_headers w true) None = Ok resp
       /\ is_error_status (status_code resp) = false /\ text resp <> []) ->
  (forall tr prompt, exists g, generate_content w tr prompt = Ok g) ->
  (forall tr payload,
     exists answer,
       requests_post w tr (DISCORD_WEBHOOK_URL w) payload = Ok answer) ->
  forall tr : trace,
    fst (run_candidates w cands tr) = Ok tt
    /\ exists sent,
         posts (snd (run_candidates w cands tr)) = posts tr ++ sent
         /\ Forall2 (fun msg c =>
                       exists summary,
                         msg = cap_content
                                 (compose_message (fst c) (snd c) summary))
              sent cands.
Proof.
  intros Hnames Hget Hgen Hpost.
  induction cands as [|[rank repo] cands IH]; intros tr.
  - cbn. split; [reflexivity|]. exists []. rewrite app_nil_r.
    split; [reflexivity | constructor].
  - destruct (one_slash_splits _ (Hnames (rank, repo) (or_introl eq_refl)))
      as (owner & name & Hsplit & _).
    cbn [snd] in Hsplit.
    destruct (Hget tr (readme_url owner name)) as (resp & Hresp & Hok & Hne).
    destruct (Hgen (tr ++ [readme_event w tr owner name])
                (prompt_of repo (text resp))) as (g & Hg).
    destruct (Hpost ((tr ++ [readme_event w tr owner name])
                       ++ [EvGenerate (prompt_of repo (text resp)) (Ok g)])
                (payload_of rank repo g)) as (answer & Hanswer).
    rewrite run_candidates_cons. cbn [fst snd].
    rewrite (process_candidate_fetched w rank repo owner name resp tr
               Hsplit Hresp), Hok.
    destruct (text resp) as [|c t] eqn:Ht; [congruence|]. cbn [truthy].
    rewrite digest_run, Hg. cbv zeta. rewrite Hanswer.
    cbn [delivery_outcome].
    destruct (IH (fun c' H' => Hnames c' (or_intror H'))
                (((tr ++ [readme_event w tr owner name])
                    ++ [EvGenerate (prompt_of repo (c :: t)) (Ok g)])
                   ++ [EvPost (DISCORD_WEBHOOK_URL w) (payload_of rank repo g)
                         (Ok answer)]))
      as (Hret & sent & Hsent & Hall).
    split; [exact Hret|].
    exists (cap_content (compose_message rank repo (strip (or_empty g)))
              :: sent).
    split.
    + rewrite Hsent, !posts_app. cbn [posts posted payload_of content].
      unfold readme_event. cbn [posts posted]. rewrite !app_nil_r.
      rewrite <- app_assoc. reflexivity.
    + constructor; [|exact Hall]. now eexists.
Qed.

(** X11: when every candidate of the slice has a name with one slash, every
    README request is answered with a document that is not empty, and the
    generative service and the webhook answer every call, the run returns
    normally and delivers one message for each candidate of the slice, in
    the order of the search result, with ranks 1, 2, ...: the number of
    deliveries is the smaller of [top_n] and the number of results. *)
Theorem all_candidates_delivered (top_n per_page : nat) (repos : list Repo)
    (tr0 : trace) :
  search_repos w query per_page [] = (Ok repos, tr0) ->
  (forall repo, In repo (firstn top_n repos) ->
                count_occ N.eq_dec (full_name repo) 47%N = 1) ->
  (forall tr url,
     exists resp,
       requests_get w tr url (github_headers w true) None = Ok resp
       /\ is_error_status (status_code resp) = false /\ text resp <> []) ->
  (forall tr prompt, exists g, generate_content w tr prompt = Ok g) ->
  (forall tr payload,
     exists answer,
       requests_post w tr (DISCORD_WEBHOOK_URL w) payload = Ok answer) ->
  fst (main_with w top_n per_page []) = Ok tt
  /\ deliveries (snd (main_with w top_n per_page []))
     = Nat.min top_n (length repos)
  /\ Forall2 (fun msg c =>
                exists summary,
                  msg = cap_content (compose_message (fst c) (snd c) summary))
       (posts (snd (main_with w top_n per_page [])))
       (enumerate (firstn top_n repos) 1).
Proof.
  intros Hsearch Hnames Hget Hgen Hpost.
  assert (Hno : posts tr0 = []).
  { rewrite search_repos_run in Hsearch. cbv zeta in Hsearch.
    injection Hsearch as _ <-. reflexivity. }
  unfold main_with, bind. rewrite Hsearch.
  destruct (run_candidates_all_delivered
              (enumerate (firstn top_n repos) 1)
              (fun c H => Hnames (snd c) (In_enumerate _ _ _ H))
              Hget Hgen Hpost tr0) as (Hret & sent & Hsent & Hall).
  rewrite Hno in Hsent. cbn [app] in Hsent.
  split; [exact Hret|]. unfold deliveries. rewrite Hsent.
  split; [|exact Hall].
  rewrite (Forall2_length Hall), length_enumerate. apply length_firstn.
Qed.

End Success.

(* ================================================================= *)
(** ** The summary, the rank line and the start-up *)

Lemma lstrip_head (s : pystr) (c : N) (rest : pystr) :
  lstrip s = c :: rest -> isspace c = false.
Proof.
  induction s as [|d s IH]; cbn [lstrip]; [discriminate|].
  destruct (isspace d) eqn:Hd; [exact IH|].
  intros H. injection H as <- _. exact Hd.
Qed.

Lemma rstrip_prefix (s : pystr) : exists post, s = rstrip s ++ post.
Proof.
  destruct (lstrip_drops_spaces (rev s)) as (pre & Hs & _).
  exists (rev pre). unfold rstrip.
  rewrite <- rev_app_distr, <- Hs. now rewrite rev_involutive.
Qed.

Lemma strip_first (s : pystr) (c : N) (rest : pystr) :
  strip s = c :: rest -> isspace c = false.
Proof.
  unfold strip. intros H.
  destruct (rstrip_prefix (lstrip s)) as (post & Hpost).
  rewrite H in Hpost. cbn [app] in Hpost.
  exact (lstrip_head s c _ Hpost).
Qed.

Lemma strip_last (s init : pystr) (c : N) :
  strip s = init ++ [c] -> isspace c = false.
Proof.
  unfold strip, rstrip. intros H.
  apply (f_equal (@rev N)) in H.
  rewrite rev_involutive, rev_app_distr in H. cbn [rev app] in H.
  exact (lstrip_head _ _ _ H).
Qed.

Lemma startswith_split (s p : pystr) :
  startswith s p = true -> exists rest, s = p ++ rest.
Proof.
  revert s. induction p as [|x p IH]; intros s H; [now exists s|].
  destruct s as [|y s]; [discriminate|]. cbn [startswith] in H.
  apply andb_prop in H as [Hxy Hp]. apply N.eqb_eq in Hxy. subst y.
  destruct (IH s Hp) as (rest & ->). now exists rest.
Qed.

Lemma startswith_cap (message p : pystr) :
  startswith message p = true -> length p <= 1900 ->
  startswith (cap_content message) p = true.
Proof.
  intros Hp Hlen. unfold cap_content.
  destruct (1900 <? length message); [|exact Hp].
  destruct (startswith_split _ _ Hp) as (rest & ->).
  rewrite firstn_app, (firstn_all2 p) by lia.
  rewrite <- app_assoc. apply startswith_app.
Qed.

(** X12: the summary [summarize_with_gemini] returns neither starts nor
    ends with a whitespace character. *)
Theorem summary_is_trimmed (w : World) (name readme : pystr) (tr : trace)
    (summary : pystr) :
  fst (summarize_with_gemini w name readme tr) = Ok summary ->
  (forall c rest, summary = c :: rest -> isspace c = false)
  /\ (forall init c, summary = init ++ [c] -> isspace c = false).
Proof.
  rewrite summarize_run. cbv zeta. cbn [fst].
  destruct (generate_content w tr _) as [g|e]; cbn [summary_outcome];
    [|discriminate].
  intros H. injection H as <-. split.
  - intros c rest. apply strip_first.
  - intros init c. apply strip_last.
Qed.

(** X13: cutting a composed message at 1900 characters leaves its first
    line, the badge and the rank, in place. *)
Theorem rank_line_survives_cap (rank : Z) (repo : Repo) (summary : pystr) :
  length (rank_line rank) <= 1900 ->
  startswith (cap_content (compose_message rank repo summary))
    (rank_line rank) = true.
Proof.
  intros H. apply startswith_cap; [apply compose_message_header | exact H].
Qed.

(** X14: the start-up goes through exactly when the three variables are
    set and none is the empty string; otherwise it stops with the message
    of the first one, in the order token, key, webhook, that is unset or
    empty. *)
Theorem load_settings_complete (getenv : pystr -> option pystr) :
  (forall t k u,
     load_settings getenv = Loaded t k u <->
     getenv env_GH_API_TOKEN = Some t /\ t <> []
     /\ getenv env_GEMINI_API_KEY = Some k /\ k <> []
     /\ getenv env_DISCORD_WEBHOOK_URL = Some u /\ u <> [])
  /\ (truthy (getenv env_GH_API_TOKEN) = false ->
      load_settings getenv = RuntimeError missing_token)
  /\ (truthy (getenv env_GH_API_TOKEN) = true ->
      truthy (getenv env_GEMINI_API_KEY) = false ->
      load_settings getenv = RuntimeError missing_key)
  /\ (truthy (getenv env_GH_API_TOKEN) = true ->
      truthy (getenv env_GEMINI_API_KEY) = true ->
      truthy (getenv env_DISCORD_WEBHOOK_URL) = false ->
      load_settings getenv = RuntimeError missing_webhook).
Proof.
  unfold load_settings.
  destruct (getenv env_GH_API_TOKEN) as [[|a t']|];
    destruct (getenv env_GEMINI_API_KEY) as [[|b k']|];
    destruct (getenv env_DISCORD_WEBHOOK_URL) as [[|c u']|];
    cbn [truthy negb or_empty];
    (split; [intros t k u; split;
             [intros H; try discriminate; injection H as <- <- <-;
              repeat split; discriminate
             |intros (H1 & N1 & H2 & N2 & H3 & N3); try discriminate;
              try congruence;
              injection H1 as <-; injection H2 as <-; injection H3 as <-;
              reflexivity]
            |repeat split; intros; try reflexivity; discriminate]).
Qed.

(* ================================================================= *)
(** ** The layout of a composed message *)

Lemma split_app_sep (sep : N) (x y : pystr) :
  split sep (x ++ sep :: y) = split sep x ++ split sep y.
Proof.
  induction x as [|c x IH]; cbn [app split].
  - now rewrite N.eqb_refl.
  - destruct (c =? sep)%N; [now rewrite IH|].
    rewrite IH. destruct (split_not_nil sep x) as (f & fs & ->). reflexivity.
Qed.

Lemma narrow_to_nil (m : option pystr) : narrow m [] = Some [].
Proof. destruct m as [[|c m]|]; reflexivity. Qed.

Lemma narrow_from_nil (i : pystr) : narrow (Some []) i = Some [].
Proof. unfold narrow. now destruct i. Qed.

Lemma fold_narrow_nil (l : list pystr) : fold_left narrow l (Some []) = Some [].
Proof.
  induction l as [|i l IH]; cbn [fold_left]; [reflexivity|].
  change (narrow (Some []) i) with (narrow (@Some pystr (@nil N)) i).
  now rewrite narrow_from_nil.
Qed.

Lemma fold_narrow_with_nil (l : list pystr) (m : option pystr) :
  In [] l -> fold_left narrow l m = Some [].
Proof.
  revert m. induction l as [|i l IH]; intros m; [easy|].
  cbn [fold_left]. intros [-> | H].
  - rewrite narrow_to_nil. apply fold_narrow_nil.
  - now apply IH.
Qed.

(** A line that starts in the first column leaves no margin to remove. *)
Lemma margin_of_unindented (lines : list pystr) (c : N) (r : pystr) :
  In (c :: r) lines -> is_sp_tab c = false -> margin_of lines = Some [].
Proof.
  intros Hin Hc. unfold margin_of. apply fold_narrow_with_nil.
  unfold indents. apply in_map_iff. exists (c :: r). split.
  - cbn [leading_ws]. now rewrite Hc.
  - apply filter_In. split; [exact Hin|]. cbn [forallb]. now rewrite Hc.
Qed.

Lemma template_split (rank stars : Z) (name url desc summary : pystr) :
  exists f fs,
    split 10 (message_template rank name stars url desc summary) =
    [] :: (repeat 32%N 8 ++ 127941%N
             :: [32; 12521; 12531; 12463; 32]%N ++ str_of_int rank)
       :: [] :: (repeat 32%N 8 ++ 128216%N :: f) :: fs.
Proof.
  destruct (template_lines rank stars name url desc summary) as (tail & ->).
  assert (Hline : Forall (fun c => c <> 10%N)
            (repeat 32%N 8 ++ 127941%N
               :: [32; 12521; 12531; 12463; 32]%N ++ str_of_int rank)).
  { apply Forall_app. split; [apply spaces_no_newline|].
    constructor; [discriminate|]. apply Forall_app. split.
    - repeat constructor; discriminate.
    - apply str_of_int_no_newline. }
  destruct (split_prefix (repeat 32%N 8 ++ [128216%N]) tail) as (f & fs & Hf).
  { apply Forall_app. split; [apply spaces_no_newline|].
    repeat constructor; discriminate. }
  rewrite <- !app_assoc in Hf. cbn [app] in Hf.
  exists f, fs.
  rewrite split_sep, (split_line _ _ Hline), split_sep, Hf. reflexivity.
Qed.

Lemma strip_two_lines (j : nat) (ca cb : N) (a b : pystr)
    (rest : list pystr) :
  isspace ca = false -> isspace cb = false ->
  exists post,
    strip (join [10%N]
             ([] :: (repeat 32%N j ++ ca :: a) :: []
                 :: (repeat 32%N j ++ cb :: b) :: rest)) =
    (ca :: a) ++ 10%N :: 10%N :: repeat 32%N j ++ cb :: post.
Proof.
  intros Ha Hb.
  destruct (join_head [10%N] (repeat 32%N j ++ cb :: b) rest) as (t & Ht).
  cbn [join]. cbn [join] in Ht. rewrite Ht. cbn [app].
  unfold strip. cbn [lstrip]. change (isspace 10) with true. cbv iota.
  rewrite <- (app_assoc (repeat 32%N j)), lstrip_spaces. cbn [app lstrip].
  rewrite Ha.
  replace (ca :: a ++ 10%N :: 10%N :: (repeat 32%N j ++ cb :: b) ++ t)
    with (((ca :: a) ++ 10%N :: 10%N :: repeat 32%N j) ++ cb :: b ++ t).
  2:{ rewrite <- ?app_assoc. cbn [app]. rewrite <- ?app_assoc. reflexivity. }
  destruct (rstrip_keeps_prefix ((ca :: a) ++ 10%N :: 10%N :: repeat 32%N j)
              cb (b ++ t) Hb) as (post & ->).
  exists post. rewrite <- ?app_assoc. reflexivity.
Qed.

(** X15: when the summary has a line after its first that starts in the
    first column with a visible character, as the lines of a summary of
    several lines do, [textwrap.dedent] finds no common margin: what it
    returns is the f-string with its whitespace-only lines emptied and every
    other line as it was.  The message then starts with the rank line, an
    empty line, and the title line still behind its eight spaces. *)
Theorem multiline_summary_keeps_indentation (rank : Z) (repo : Repo)
    (first more : pystr) (c : N) :
  is_sp_tab c = false -> c <> 10%N ->
  dedent (message_template rank (full_name repo) (stargazers_count repo)
            (html_url repo) (or_empty (description repo))
            (first ++ 10%N :: c :: more))
  = join [10%N]
      (map blank_line
         (split 10
            (message_template rank (full_name repo) (stargazers_count repo)
               (html_url repo) (or_empty (description repo))
               (first ++ 10%N :: c :: more))))
  /\ startswith (compose_message rank repo (first ++ 10%N :: c :: more))
       (rank_line rank ++ 10%N :: repeat 32%N 8 ++ [128216%N]) = true.
Proof.
  intros Hc Hnl.
  set (T := message_template rank (full_name repo) (stargazers_count repo)
              (html_url repo) (or_empty (description repo))
              (first ++ 10%N :: c :: more)).
  assert (Hmargin : margin_of (map blank_line (split 10 T)) = Some []).
  { destruct (split_prefix [c] (more ++ msg_end)) as (f & fs & Hf).
    { now constructor. }
    apply (margin_of_unindented _ c f); [|exact Hc].
    replace (c :: f) with (blank_line (c :: f))
      by (unfold blank_line; cbn [forallb]; now rewrite Hc).
    apply in_map. subst T. unfold message_template.
    rewrite !app_assoc. rewrite <- (app_assoc _ (10%N :: c :: more) msg_end).
    cbn [app]. rewrite split_app_sep. apply in_or_app. right.
    cbn [app] in Hf. rewrite Hf. now left. }
  assert (Hdedent : dedent T = join [10%N] (map blank_line (split 10 T))).
  { rewrite (dedent_margin T [] Hmargin). now rewrite remove_no_prefix. }
  split; [exact Hdedent|].
  unfold compose_message. fold T. rewrite Hdedent.
  destruct (template_split rank (stargazers_count repo) (full_name repo)
              (html_url repo) (or_empty (description repo))
              (first ++ 10%N :: c :: more)) as (f & fs & Hsplit).
  fold T in Hsplit. rewrite Hsplit. cbn [map].
  change (blank_line []) with (@nil N).
  rewrite (blank_line_visible 8 127941 _ eq_refl),
          (blank_line_visible 8 128216 f eq_refl).
  destruct (strip_two_lines 8 127941 128216
              ([32; 12521; 12531; 12463; 32]%N ++ str_of_int rank) f
              (map blank_line fs) eq_refl eq_refl) as (post & Hpost).
  match goal with
  | |- startswith ?x _ = true =>
      replace x
        with ((rank_line rank ++ 10%N :: repeat 32%N 8 ++ [128216%N]) ++ post)
  end.
  - apply startswith_app.
  - etransitivity; [|symmetry; exact Hpost].
    unfold rank_line, rank_badge. rewrite <- ?app_assoc. cbn [app].
    rewrite <- ?app_assoc. reflexivity.
Qed.

(* ================================================================= *)
(** ** The further properties at concrete runs *)

Lemma readme_transport_failure_ends_run_witness :
  fetch_readme Cases.w_offline (lit "a") (lit "x") []
    = (Raise RequestFailure,
       [] ++ [readme_event Cases.w_offline [] (lit "a") (lit "x")])
  /\ run_candidates Cases.w_offline Demo.two_candidates []
     = (Raise RequestFailure,
        [] ++ [readme_event Cases.w_offline [] (lit "a") (lit "x")]).
Proof.
  apply (readme_transport_failure_ends_run Cases.w_offline 1 Demo.repo_ax
           (lit "a") (lit "x") RequestFailure [(2%Z, Demo.repo_by)] []);
    [reflexivity | reflexivity | discriminate].
Defined.

Lemma readme_accepted_on_any_non_error_status_witness :
  fetch_readme Cases.w_accepted (lit "a") (lit "x") []
    = (Ok (Some (lit "later")),
       [] ++ [readme_event Cases.w_accepted [] (lit "a") (lit "x")]).
Proof.
  exact (readme_accepted_on_any_non_error_status Cases.w_accepted
           (lit "a") (lit "x") (Demo.response 202 (lit "later")) []
           eq_refl eq_refl).
Defined.

Lemma refused_delivery_continues_witness :
  run_candidates Cases.w_rejecting Demo.two_candidates [] =
  run_candidates Cases.w_rejecting [(2%Z, Demo.repo_by)]
    ((([] ++ [readme_event Cases.w_rejecting [] (lit "a") (lit "x")])
        ++ [EvGenerate (prompt_of Demo.repo_ax (lit "doc"))
              (Ok (Some (lit "S1")))])
       ++ [EvPost (DISCORD_WEBHOOK_URL Cases.w_rejecting)
             (payload_of 1 Demo.repo_ax (Some (lit "S1")))
             (Ok (Demo.response 500 (lit "Internal Server Error")))]).
Proof.
  apply (refused_delivery_continues Cases.w_rejecting 1 Demo.repo_ax
           (lit "a") (lit "x") (Demo.response 200 (lit "doc"))
           (Demo.response 500 (lit "Internal Server Error"))
           (Some (lit "S1")) [(2%Z, Demo.repo_by)] []);
    try reflexivity.
  discriminate.
Defined.

Lemma search_without_items_aborts_witness :
  exists e,
    main_with Cases.w_no_items TOP_N 5 [] =
      (Raise e,
       [] ++ [EvGet search_url (github_headers Cases.w_no_items false)
                (Some (search_params query 5))
                (Ok {| status_code := 200; text := [];
                       json_body := Ok (JDict None) |})])
    /\ e = KeyError.
Proof.
  apply (search_without_items_aborts Cases.w_no_items TOP_N 5
           {| status_code := 200; text := []; json_body := Ok (JDict None) |}
           []); [reflexivity | reflexivity | discriminate].
Defined.

Lemma malformed_full_name_ends_run_witness :
  run_candidates Demo.w_happy [(1%Z, Cases.repo_flat); (2%Z, Demo.repo_by)] []
    = (Raise TypeError, []).
Proof.
  apply (malformed_full_name_ends_run Demo.w_happy 1 Cases.repo_flat
           [(2%Z, Demo.repo_by)] []).
  discriminate.
Defined.

Lemma readme_request_target_witness :
  exists out later_events,
    snd (process_candidate Demo.w_happy 1 Demo.repo_ax []) =
    [] ++ EvGet (GITHUB_API_BASE ++ repos_prefix ++ full_name Demo.repo_ax
                   ++ readme_suffix)
            (github_headers Demo.w_happy true) None out
       :: later_events.
Proof.
  apply (readme_request_target Demo.w_happy 1 Demo.repo_ax []).
  reflexivity.
Defined.

Lemma all_candidates_delivered_witness :
  fst (main_with Demo.w_happy TOP_N 5 []) = Ok tt
  /\ deliveries (snd (main_with Demo.w_happy TOP_N 5 []))
     = Nat.min TOP_N (length [Demo.repo_ax; Demo.repo_by])
  /\ Forall2 (fun msg c =>
                exists summary,
                  msg = cap_content (compose_message (fst c) (snd c) summary))
       (posts (snd (main_with Demo.w_happy TOP_N 5 [])))
       (enumerate (firstn TOP_N [Demo.repo_ax; Demo.repo_by]) 1).
Proof.
  apply (all_candidates_delivered Demo.w_happy TOP_N 5
           [Demo.repo_ax; Demo.repo_by] [search_event Demo.w_happy [] 5]).
  - reflexivity.
  - intros repo [<- | [<- | []]]; reflexivity.
  - intros tr url. exists (Demo.response 200 (lit "doc")).
    split; [reflexivity|]. split; [reflexivity | discriminate].
  - intros tr prompt. cbn. unfold Demo.summaries.
    destruct (PyStr.eqb prompt Demo.prompt_ax); now eexists.
  - intros tr payload. now eexists.
Defined.

Lemma summary_is_trimmed_witness :
  (forall c rest, lit "S1" = c :: rest -> isspace c = false)
  /\ (forall init c, lit "S1" = init ++ [c] -> isspace c = false).
Proof.
  exact (summary_is_trimmed Demo.w_padded (lit "a/x") (lit "doc") []
           (lit "S1") eq_refl).
Defined.

Lemma rank_line_survives_cap_witness :
  startswith (cap_content (compose_message 2 Demo.repo_by (lit "S2")))
    (rank_line 2) = true.
Proof.
  apply (rank_line_survives_cap 2 Demo.repo_by (lit "S2")).
  apply Nat.leb_le. reflexivity.
Defined.

Lemma multiline_summary_keeps_indentation_witness :
  dedent (message_template 1 (full_name Demo.repo_ax)
            (stargazers_count Demo.repo_ax) (html_url Demo.repo_ax)
            (or_empty (description Demo.repo_ax))
            (lit "one" ++ 10%N :: 116%N :: lit "wo"))
  = join [10%N]
      (map blank_line
         (split 10
            (message_template 1 (full_name Demo.repo_ax)
               (stargazers_count Demo.repo_ax) (html_url Demo.repo_ax)
               (or_empty (description Demo.repo_ax))
               (lit "one" ++ 10%N :: 116%N :: lit "wo"))))
  /\ startswith
       (compose_message 1 Demo.repo_ax
          (lit "one" ++ 10%N :: 116%N :: lit "wo"))
       (rank_line 1 ++ 10%N :: repeat 32%N 8 ++ [128216%N]) = true.
Proof.
  apply (multiline_summary_keeps_indentation 1 Demo.repo_ax (lit "one")
           (lit "wo") 116); [reflexivity | discriminate].
Defined.

Example two_line_summary_message :
  compose_message 1 Demo.repo_ax (lit "one
two") = lit "🏅 ランク 1

        📘 **a/x**
        ⭐ Stars: 500
        🔗 u1

        📝 説明:
        d1

        🧠 README 要約 (Gemini):
        one
two".
Proof. vm_compute. reflexivity. Qed.

Example settings_loaded :
  load_settings Cases.complete_env
    = Loaded (lit "ghp_1") (lit "key") (lit "https://discord.example/hook").
Proof. vm_compute. reflexivity. Qed.

Example empty_key_refused :
  load_settings Cases.empty_key_env = RuntimeError missing_key.
Proof. vm_compute. reflexivity. Qed.

(* ================================================================= *)
(** ** The message of single-line fields *)

Section Layout.

Local Abbreviation sp n := (repeat 32%N n).

Lemma no_newline_Forall (s : pystr) :
  no_newline s = true -> Forall (fun c => c <> 10%N) s.
Proof.
  unfold no_newline. rewrite forallb_forall, Forall_forall.
  intros H c Hc. specialize (H c Hc).
  now apply negb_true_iff, N.eqb_neq in H.
Qed.

Lemma no_newline_app (a b : pystr) :
  no_newline (a ++ b) = no_newline a && no_newline b.
Proof. apply forallb_app. Qed.

Lemma no_newline_spaces (n : nat) : no_newline (sp n) = true.
Proof. induction n; [reflexivity | exact IHn]. Qed.

Lemma no_newline_int (z : Z) : no_newline (str_of_int z) = true.
Proof.
  unfold no_newline. apply forallb_forall. intros c Hc.
  pose proof (str_of_int_no_newline z) as H. rewrite Forall_forall in H.
  now apply negb_true_iff, N.eqb_neq, H.
Qed.

Lemma split_no_sep (s : pystr) :
  Forall (fun c => c <> 10%N) s -> split 10 s = [s].
Proof.
  induction 1 as [|c s Hc _ IH]; [reflexivity|].
  cbn [split]. apply N.eqb_neq in Hc. now rewrite Hc, IH.
Qed.

Lemma split_join (lines : list pystr) :
  lines <> [] -> forallb no_newline lines = true ->
  split 10 (join [10%N] lines) = lines.
Proof.
  induction lines as [|f [|g fs] IH]; intros Hne Hall; [easy| |].
  - cbn in *. apply split_no_sep, no_newline_Forall.
    now apply andb_prop in Hall.
  - cbn [forallb] in Hall. apply andb_prop in Hall as [Hf Hrest].
    change (join [10%N] (f :: g :: fs))
      with (f ++ 10%N :: join [10%N] (g :: fs)).
    rewrite (split_line f _ (no_newline_Forall f Hf)).
    now rewrite IH.
Qed.

Lemma forallb_spaces (n : nat) (x : pystr) :
  forallb is_sp_tab (sp n ++ x) = forallb is_sp_tab x.
Proof. induction n; [reflexivity | exact IHn]. Qed.

Lemma blank_line_indented (n : nat) (x : pystr) :
  blank_line (sp n ++ x) = if forallb is_sp_tab x then [] else sp n ++ x.
Proof. unfold blank_line. now rewrite forallb_spaces. Qed.

Lemma leading_ws_indented (n : nat) (x : pystr) :
  leading_ws (sp n ++ x) = sp n ++ leading_ws x.
Proof. induction n; cbn; [reflexivity | now rewrite IHn]. Qed.

Lemma fold_narrow_keep (m : pystr) (l : list pystr) :
  Forall (fun i => startswith i m = true) l ->
  fold_left narrow l (Some m) = Some m.
Proof.
  induction 1 as [|i l Hi _ IH]; [reflexivity|].
  cbn [fold_left narrow]. now rewrite Hi.
Qed.

Lemma indents_all_indented (n : nat) (ls : list pystr) :
  Forall (fun l => l = [] \/ startswith l (sp n) = true) ls ->
  Forall (fun i => startswith i (sp n) = true) (indents ls).
Proof.
  induction 1 as [|l ls Hl _ IH]; [constructor|].
  unfold indents in *. cbn [filter].
  destruct (forallb is_sp_tab l) eqn:Hb; cbn [negb]; [exact IH|].
  cbn [map]. constructor; [|exact IH].
  destruct Hl as [-> | Hl]; [discriminate|].
  destruct (startswith_split _ _ Hl) as (y & ->).
  rewrite leading_ws_indented. apply startswith_app.
Qed.

(** When the first written line is indented by [n] spaces and every other
    line is empty or indented by as much, [dedent] removes [n] spaces. *)
Lemma dedent_indented (text : pystr) (n : nat) (x : pystr)
    (ls : list pystr) :
  map blank_line (split 10 text) = [] :: (sp n ++ x) :: ls ->
  forallb is_sp_tab x = false -> leading_ws x = [] ->
  Forall (fun l => l = [] \/ startswith l (sp n) = true) ls ->
  dedent text = join [10%N] ([] :: x :: map (remove_prefix (sp n)) ls).
Proof.
  intros Hlines Hx Hlead Hls.
  assert (Hm : margin_of (map blank_line (split 10 text)) = Some (sp n)).
  { rewrite Hlines. unfold margin_of. rewrite indents_blank.
    unfold indents. cbn [filter]. rewrite forallb_spaces, Hx. cbn [negb map].
    rewrite leading_ws_indented, Hlead, app_nil_r. cbn [fold_left].
    change (narrow None (sp n)) with (Some (sp n)).
    apply fold_narrow_keep. exact (indents_all_indented n ls Hls). }
  rewrite (dedent_margin text _ Hm), Hlines. cbn [map].
  rewrite remove_prefix_nil, (remove_prefix_spaces n n x (le_n n)).
  now rewrite Nat.sub_diag.
Qed.

Lemma lstrip_app_visible (x : pystr) (c : N) (y : pystr) :
  isspace c = false -> lstrip (x ++ c :: y) = lstrip x ++ c :: y.
Proof.
  intros Hc. induction x as [|d x IH]; cbn [app lstrip].
  - now rewrite Hc.
  - now destruct (isspace d).
Qed.

Lemma rstrip_app_visible (pre : pystr) (c : N) (post : pystr) :
  isspace c = false -> rstrip (pre ++ c :: post) = pre ++ c :: rstrip post.
Proof.
  intros Hc. unfold rstrip. rewrite rev_app_distr. cbn [rev].
  rewrite <- app_assoc. cbn [app].
  rewrite (lstrip_app_visible (rev post) c (rev pre) Hc).
  rewrite rev_app_distr. cbn [rev]. rewrite rev_involutive, <- app_assoc.
  reflexivity.
Qed.

Lemma sp_tab_is_space (c : N) : is_sp_tab c = true -> isspace c = true.
Proof.
  unfold is_sp_tab. intros H. apply orb_prop in H as [H | H];
    apply N.eqb_eq in H; now subst.
Qed.

(** What is left of the last lines of the message once the end is
    stripped: the summary on a line of its own, or nothing. *)
Lemma rstrip_summary (summary : pystr) :
  strip summary = summary ->
  blank_line summary = summary
  /\ rstrip (10%N :: summary ++ [10%N])
     = match summary with [] => [] | _ :: _ => 10%N :: summary end.
Proof.
  intros Hs. destruct summary as [|c rest]; [now split|].
  assert (Hc : isspace c = false).
  { apply (strip_first (c :: rest) c rest). exact Hs. }
  split.
  - unfold blank_line. cbn [forallb].
    destruct (is_sp_tab c) eqn:Hb; [|reflexivity].
    apply sp_tab_is_space in Hb. congruence.
  - destruct (exists_last (l := c :: rest)) as (init & d & Hlast);
      [discriminate|].
    assert (Hd : isspace d = false).
    { apply (strip_last (c :: rest) init d). now rewrite Hs. }
    rewrite Hlast.
    transitivity (rstrip ((10%N :: init) ++ d :: [10%N])).
    { f_equal. cbn [app]. now rewrite <- app_assoc. }
    rewrite (rstrip_app_visible (10%N :: init) d [10%N] Hd).
    reflexivity.
Qed.

End Layout.

Section Layout2.

Local Abbreviation sp n := (repeat 32%N n).

Lemma join_app (sep : pystr) (a b : list pystr) :
  a <> [] -> b <> [] ->
  join sep (a ++ b) = join sep a ++ sep ++ join sep b.
Proof.
  intros Ha Hb. induction a as [|f [|g a] IH]; [easy| |].
  - destruct b as [|h b]; [easy|]. reflexivity.
  - change (join sep ((f :: g :: a) ++ b))
      with (f ++ sep ++ join sep ((g :: a) ++ b)).
    rewrite IH by discriminate.
    change (join sep (f :: g :: a)) with (f ++ sep ++ join sep (g :: a)).
    now rewrite <- !app_assoc.
Qed.

Lemma strip_framed (body tail pre b' : pystr) (c0 cl : N) :
  body = c0 :: b' -> isspace c0 = false ->
  body = pre ++ [cl] -> isspace cl = false ->
  strip (10%N :: body ++ tail) = body ++ rstrip tail.
Proof.
  intros Hhead Hc0 Hlast Hcl. unfold strip. cbn [lstrip].
  change (isspace 10) with true. cbv iota.
  rewrite Hhead at 1. cbn [app lstrip]. rewrite Hc0.
  change (c0 :: b' ++ tail) with ((c0 :: b') ++ tail). rewrite <- Hhead.
  rewrite Hlast, <- app_assoc. cbn [app].
  rewrite (rstrip_app_visible pre cl tail Hcl), <- app_assoc. reflexivity.
Qed.

Lemma remove_blank (n : nat) (y : pystr) :
  remove_prefix (sp n) (blank_line (sp n ++ y)) = blank_line y.
Proof.
  rewrite blank_line_indented. unfold blank_line.
  destruct (forallb is_sp_tab y).
  - apply remove_prefix_nil.
  - rewrite (remove_prefix_spaces n n y (le_n n)). now rewrite Nat.sub_diag.
Qed.

Lemma blank_indented_ok (n : nat) (y : pystr) :
  blank_line (sp n ++ y) = []
  \/ startswith (blank_line (sp n ++ y)) (sp n) = true.
Proof.
  rewrite blank_line_indented. destruct (forallb is_sp_tab y); [now left|].
  right. apply startswith_app.
Qed.

Lemma template_as_lines (rank stars : Z) (name url desc summary : pystr) :
  message_template rank name stars url desc summary =
  join [10%N]
    [[];
     sp 8 ++ rank_badge ++ str_of_int rank;
     [];
     sp 8 ++ line_title ++ name ++ line_title_end;
     sp 8 ++ line_stars ++ str_of_int stars;
     sp 8 ++ line_url ++ url;
     [];
     sp 8 ++ line_desc;
     sp 8 ++ desc;
     [];
     sp 8 ++ line_summary;
     sp 8 ++ summary;
     sp 8 ++ []].
Proof.
  unfold message_template, msg_rank, msg_name, msg_stars, msg_url, msg_desc,
    msg_summary, msg_end, rank_badge, line_title, line_title_end, line_stars,
    line_url, line_desc, line_summary.
  cbn [join app repeat]. rewrite <- ?app_assoc. cbn [app]. reflexivity.
Qed.

End Layout2.

(** X16: when the name, the address, the description and the summary hold
    no line break, and the summary is trimmed (as the one
    [summarize_with_gemini] returns is), [textwrap.dedent] removes the eight
    spaces of every line and the message is the ten lines of the template,
    followed by the summary on a line of its own unless it is empty. *)
Theorem single_line_message (rank : Z) (repo : Repo) (summary : pystr) :
  no_newline (full_name repo) = true ->
  no_newline (html_url repo) = true ->
  no_newline (or_empty (description repo)) = true ->
  no_newline summary = true ->
  strip summary = summary ->
  compose_message rank repo summary =
  plain_layout rank (full_name repo) (stargazers_count repo) (html_url repo)
    (or_empty (description repo)) summary.
Proof.
  intros Hname Hurl Hdesc Hsum Hstrip.
  destruct (rstrip_summary summary Hstrip) as (Hblank & Hend).
  unfold compose_message.
  set (name := full_name repo) in *. set (url := html_url repo) in *.
  set (desc := or_empty (description repo)) in *.
  set (stars := stargazers_count repo).
  rewrite template_as_lines.
  set (rest :=
         [[];
          repeat 32%N 8 ++ line_title ++ name ++ line_title_end;
          repeat 32%N 8 ++ line_stars ++ str_of_int stars;
          repeat 32%N 8 ++ line_url ++ url;
          [];
          repeat 32%N 8 ++ line_desc;
          repeat 32%N 8 ++ desc;
          [];
          repeat 32%N 8 ++ line_summary;
          repeat 32%N 8 ++ summary;
          repeat 32%N 8 ++ []]).
  set (lines := [] :: (repeat 32%N 8 ++ rank_badge ++ str_of_int rank) :: rest).
  assert (Hsplit : split 10 (join [10%N] lines) = lines).
  { apply split_join; [discriminate|]. subst lines rest.
    cbn [forallb]. rewrite !no_newline_app, !no_newline_spaces,
      !no_newline_int, Hname, Hurl, Hdesc, Hsum. reflexivity. }
  assert (Hrest : Forall (fun l => l = [] \/ startswith l (repeat 32%N 8) = true)
                    (map blank_line rest)).
  { subst rest. cbn [map].
    repeat (constructor;
            [first [now left | apply blank_indented_ok]|]).
    constructor. }
  rewrite (dedent_indented (join [10%N] lines) 8
             (rank_badge ++ str_of_int rank) (map blank_line rest)).
  2:{ rewrite Hsplit. subst lines. cbn [map].
      change (blank_line []) with (@nil N).
      now rewrite blank_line_indented. }
  2:{ reflexivity. }
  2:{ reflexivity. }
  2:{ exact Hrest. }
  subst rest. cbn [map].
  rewrite !remove_blank. change (blank_line []) with (@nil N).
  rewrite remove_prefix_nil, Hblank.
  change (blank_line (line_title ++ name ++ line_title_end))
    with (line_title ++ name ++ line_title_end).
  change (blank_line (line_stars ++ str_of_int stars))
    with (line_stars ++ str_of_int stars).
  change (blank_line (line_url ++ url)) with (line_url ++ url).
  change (blank_line line_desc) with line_desc.
  change (blank_line line_summary) with line_summary.
  set (body_lines :=
         [rank_badge ++ str_of_int rank;
          [];
          line_title ++ name ++ line_title_end;
          line_stars ++ str_of_int stars;
          line_url ++ url;
          [];
          line_desc;
          blank_line desc;
          []]).
  unfold plain_layout. fold name url desc stars.
  change [rank_badge ++ str_of_int rank; [];
          line_title ++ name ++ line_title_end;
          line_stars ++ str_of_int stars; line_url ++ url; [];
          line_desc; blank_line desc; []; line_summary]
    with (body_lines ++ [line_summary]).
  set (body := join [10%N] (body_lines ++ [line_summary])).
  transitivity (strip (10%N :: body ++ 10%N :: summary ++ [10%N])).
  { f_equal.
    change [[]; rank_badge ++ str_of_int rank; [];
            line_title ++ name ++ line_title_end;
            line_stars ++ str_of_int stars; line_url ++ url; [];
            line_desc; blank_line desc; []; line_summary; summary; []]
      with ([[]] ++ (body_lines ++ [line_summary]) ++ [summary; []]).
    rewrite (join_app [10%N] [[]]), (join_app [10%N] (body_lines ++ _));
      try discriminate.
    cbn [join app]. rewrite ?app_nil_r. reflexivity. }
  assert (Hbody : body = join [10%N] body_lines ++ 10%N :: line_summary).
  { subst body. rewrite join_app; [reflexivity | | discriminate].
    subst body_lines. discriminate. }
  rewrite (strip_framed body (10%N :: summary ++ [10%N])
             (join [10%N] body_lines ++ 10%N :: removelast line_summary)
             (tl body) 127941 58).
  - now rewrite Hend.
  - rewrite Hbody. subst body_lines. unfold rank_badge. reflexivity.
  - reflexivity.
  - rewrite Hbody, <- app_assoc. reflexivity.
  - reflexivity.
Qed.

Lemma strip_idempotent (s : pystr) : strip (strip s) = strip s.
Proof.
  remember (strip s) as t eqn:Ht. symmetry in Ht.
  destruct t as [|c r]; [reflexivity|].
  pose proof (strip_first s c r Ht) as Hc.
  destruct (exists_last (l := c :: r)) as (init & d & Hlast); [discriminate|].
  assert (Hd : isspace d = false).
  { apply (strip_last s init d). now rewrite Ht. }
  unfold strip. cbn [lstrip]. rewrite Hc. unfold rstrip.
  rewrite Hlast, rev_app_distr. cbn [rev app lstrip]. rewrite Hd.
  cbn [rev]. now rewrite rev_involutive.
Qed.

Lemma single_line_message_witness :
  compose_message 1 Demo.repo_ax (lit "S1") =
  plain_layout 1 (full_name Demo.repo_ax) (stargazers_count Demo.repo_ax)
    (html_url Demo.repo_ax) (or_empty (description Demo.repo_ax)) (lit "S1").
Proof.
  exact (single_line_message 1 Demo.repo_ax (lit "S1")
           eq_refl eq_refl eq_refl eq_refl eq_refl).
Defined.

Example message_without_description_and_summary :
  compose_message 3 Cases.repo_flat [] = lit "🏅 ランク 3

📘 **flat**
⭐ Stars: 7
🔗 u3

📝 説明:


🧠 README 要約 (Gemini):"
  /\ plain_layout 3 (lit "flat") 7 (lit "u3") [] [] =
     compose_message 3 Cases.repo_flat [].
Proof. split; vm_compute; reflexivity. Qed.

